(** * openpiv.tools.Multiprocesser: batch processing of image pairs

    A shallow embedding of the class [Multiprocesser] of
    [src/openpiv/tools.py] (Python 2), and the properties of its
    construction and of its [run] method; then of the other functions of
    the module: [negative], [imsave], [save], [display],
    [display_windows_sampling] and [display_vector_field].

    - Python [str] values are byte strings: [string], compared byte by
      byte, which is what [sorted] does on a list of [str].
    - [glob.glob], [os.path.abspath] and [os.path.join] belong to the
      host (Python's library and the file system), gathered in [Host].
    - An exception is a value; code that may raise returns a sum.
    - The function handed to [run] acts on an outside world [W]
      (files it reads and writes): explicit state passing.
    - [multiprocessing.Pool.map] is a step relation over the pool of
      worker processes. *)

From Stdlib Require Import String Ascii ZArith Lia DecimalString.
From stdpp Require Import base tactics option relations list sorting.

Local Open Scope string_scope.
Local Open Scope list_scope.

(** ** Python values *)

(** [s1 <= s2] on Python 2 [str]: lexicographic on the bytes. *)
Definition str_le (s1 s2 : string) : Prop := String.leb s1 s2 = true.

#[global] Instance str_le_dec : RelDecision str_le.
Proof. intros s1 s2. unfold str_le. apply _. Defined.

(** [sorted(l)] on a list of [str].  Python sorts with a stable merge
    sort; on a total, antisymmetric order every sorting algorithm
    returns the same list ([sorted_unique] below). *)
Definition sorted (l : list string) : list string := merge_sort str_le l.

(** [xrange(n)]: the integers 0, 1, ..., n-1. *)
Definition xrange (n : nat) : list nat := seq 0 n.

(** [zip(la, lb, lc)]: stops at the shortest of the three. *)
Fixpoint zip {A B C} (la : list A) (lb : list B) (lc : list C)
  : list (A * B * C) :=
  match la, lb, lc with
  | a :: la', b :: lb', c :: lc' => (a, b, c) :: zip la' lb' lc'
  | _, _, _ => []
  end.

(** An exception object: its class and its message. *)
Record exception := Exception { exc_type : string; exc_msg : string }.

Definition ValueError (msg : string) : exception := Exception "ValueError" msg.

Definition dquote : string := String "034"%char EmptyString.

(** The two messages of [Multiprocesser.__init__]. *)
Definition msg_equal_number : string :=
  "Something failed loading the image file. There should be an equal number of "
  ++ dquote ++ "a" ++ dquote ++ " and " ++ dquote ++ "b" ++ dquote ++ " files.".

Definition msg_no_images : string :=
  "Something failed loading the image file. No images were found. Please check directory and image template name.".

(** ** The host: file system and path functions *)

Record Host := {
  os_path_abspath : string -> string;
  os_path_join : string -> string -> string;
  (** the matches of a pattern, in the order the file system lists them *)
  glob_glob : string -> list string
}.

(** ** Calls that act on the outside world *)

(** How a call ends: it returns, or it raises. *)
Inductive result := Return | Raise (e : exception).

(** A task of [run]: the tuple [(file_a, file_b, i)]. *)
Definition image_pair : Type := string * string * nat.

(** A Python function of one image pair over the world [W]: how the call
    ends, and the world it leaves. *)
Definition callable (W : Type) : Type := image_pair -> W -> result * W.

(** [for image_pair in image_pairs: func(image_pair)] *)
Fixpoint for_each {W} (func : callable W) (image_pairs : list image_pair) (w : W)
  : result * W :=
  match image_pairs with
  | [] => (Return, w)
  | image_pair :: rest =>
      match func image_pair w with
      | (Return, w') => for_each func rest w'
      | (Raise e, w') => (Raise e, w')
      end
  end.

(** ** multiprocessing.Pool (Python 2.7)

    [Pool.map(func, iterable)] cuts the iterable into batches, puts them
    on the task queue and waits for the [MapResult]. Each worker process
    takes a batch, calls [func] on its items in turn ([mapstar]) and puts
    the outcome on the result queue; an exception ends the batch. The
    result handler counts the batches that succeeded; the first failure
    it sees makes the result ready with that exception. A call of [func]
    is one step: the processes interleave between calls. *)

Module Pool.

(** [chunksize, extra = divmod(len(iterable), len(self._pool) * 4)];
    [if extra: chunksize += 1]; [if len(iterable) == 0: chunksize = 0]. *)
Definition chunksize (len processes : nat) : nat :=
  let chunksize := len / (processes * 4) in
  let extra := len mod (processes * 4) in
  let chunksize := if negb (extra =? 0)%nat then chunksize + 1 else chunksize in
  if (len =? 0)%nat then 0 else chunksize.

(** [Pool._get_tasks]: slices of [size] items until a slice is empty.
    The first argument bounds the number of slices. *)
Fixpoint get_tasks {A} (n size : nat) (it : list A) : list (list A) :=
  match n with
  | 0 => []
  | S n' =>
      match take size it with
      | [] => []
      | x => x :: get_tasks n' size (drop size it)
      end
  end.

(** [MapResult.__init__]: the number of batches awaited. *)
Definition number_of_batches (length chunksize : nat) : nat :=
  if (chunksize =? 0)%nat then 0
  else length / chunksize + (if negb (length mod chunksize =? 0)%nat then 1 else 0).

Section WithWorld.
Context {W : Type}.

Record t := Make {
  taskqueue : list (list image_pair);
  (** each worker process: idle, or what is left of its batch *)
  workers : list (option (list image_pair));
  (** outcomes of batches, not yet seen by the result handler *)
  outqueue : list result;
  number_left : nat;
  (** the [MapResult]: not ready, or how [get()] ends *)
  ready : option result;
  world : W
}.

(** [Pool(processes)] followed by [map_async(func, iterable)]. *)
Definition start (processes : nat) (iterable : list image_pair) (w : W) : t :=
  let chunksize := chunksize (length iterable) processes in
  {| taskqueue := get_tasks (length iterable) chunksize iterable;
     workers := replicate processes None;
     outqueue := [];
     number_left := number_of_batches (length iterable) chunksize;
     ready := if (chunksize =? 0)%nat then Some Return else None;
     world := w |}.

(** One step of the pool while the caller waits in [get()]. *)
Inductive step (func : callable W) : t -> t -> Prop :=
| step_get s i batch tasks :
    ready s = None ->
    workers s !! i = Some None ->
    taskqueue s = batch :: tasks ->
    step func s
      (Make tasks (<[i := Some batch]> (workers s)) (outqueue s)
            (number_left s) None (world s))
| step_call_return s i x rest w' :
    ready s = None ->
    workers s !! i = Some (Some (x :: rest)) ->
    func x (world s) = (Return, w') ->
    step func s
      (Make (taskqueue s) (<[i := Some rest]> (workers s)) (outqueue s)
            (number_left s) None w')
| step_call_raise s i x rest e w' :
    ready s = None ->
    workers s !! i = Some (Some (x :: rest)) ->
    func x (world s) = (Raise e, w') ->
    step func s
      (Make (taskqueue s) (<[i := None]> (workers s)) (outqueue s ++ [Raise e])
            (number_left s) None w')
| step_put s i :
    ready s = None ->
    workers s !! i = Some (Some []) ->
    step func s
      (Make (taskqueue s) (<[i := None]> (workers s)) (outqueue s ++ [Return])
            (number_left s) None (world s))
| step_handle_success s results :
    ready s = None ->
    outqueue s = Return :: results ->
    step func s
      (Make (taskqueue s) (workers s) results (number_left s - 1)
            (if (number_left s - 1 =? 0)%nat then Some Return else None) (world s))
| step_handle_failure s e results :
    ready s = None ->
    outqueue s = Raise e :: results ->
    step func s
      (Make (taskqueue s) (workers s) results (number_left s)
            (Some (Raise e)) (world s)).

(** [Pool(processes).map(func, iterable)] started in world [w] can end
    as [out]: the pool reaches a state whose result is ready. *)
Definition map (func : callable W) (processes : nat)
    (iterable : list image_pair) (w : W) (out : result * W) : Prop :=
  exists s, rtc (step func) (start processes iterable w) s
            /\ ready s = Some (fst out) /\ world s = snd out.

End WithWorld.
Arguments t : clear implicits.

End Pool.

(** ** The class *)

Module Multiprocesser.

(** The attributes [__init__] sets. *)
Record t := Self {
  files_a : list string;
  files_b : list string;
  n_files : nat
}.

(** [Multiprocesser.__init__(self, data_dir, pattern_a, pattern_b)]:
    the exception raised, or the object built. The two tests are
    [not len(files_a) == len(files_b)] and [not len(files_a)], which
    holds of the length 0, in this order. *)
Definition __init__ (h : Host) (data_dir pattern_a pattern_b : string)
  : exception + t :=
  let files_a :=
    sorted (glob_glob h (os_path_join h (os_path_abspath h data_dir) pattern_a)) in
  let files_b :=
    sorted (glob_glob h (os_path_join h (os_path_abspath h data_dir) pattern_b)) in
  let n_files := length files_a in
  if negb (length files_a =? length files_b)%nat then
    inl (ValueError msg_equal_number)
  else if (length files_a =? 0)%nat then
    inl (ValueError msg_no_images)
  else
    inr (Self files_a files_b n_files).

(** The list of tasks [run] builds (its first statement). *)
Definition image_pairs (self : t) : list image_pair :=
  zip (files_a self) (files_b self) (xrange (n_files self)).

(** [Multiprocesser.run(self, func, n_cpus)] started in world [w] can
    end as [out]. With [n_cpus > 1] the pool decides in which order the
    calls happen, hence a relation. *)
Definition run {W} (self : t) (func : callable W) (n_cpus : Z) (w : W)
    (out : result * W) : Prop :=
  let image_pairs := image_pairs self in
  if (n_cpus >? 1)%Z then
    Pool.map func (Z.to_nat n_cpus) image_pairs w out
  else
    out = for_each func image_pairs w.

End Multiprocesser.

(** ** A POSIX host over a table of directories

    Used for the concrete scenarios: a directory table gives, for an
    absolute directory, its entries in the order the file system
    enumerates them. Patterns use [*] (any run of bytes) and [?] (one
    byte); other bytes stand for themselves. *)

Fixpoint fnmatch (pat name : list ascii) : bool :=
  match pat with
  | [] => match name with [] => true | _ => false end
  | p :: pat' =>
      if Ascii.eqb p "*"%char then
        (fix star (s : list ascii) : bool :=
           fnmatch pat' s || match s with [] => false | _ :: s' => star s' end) name
      else
        match name with
        | [] => false
        | c :: name' =>
            (Ascii.eqb p "?"%char || Ascii.eqb p c) && fnmatch pat' name'
        end
  end.

(** Splits a path at its last slash: directory and last component. *)
Fixpoint split_path (p : list ascii) : option (list ascii) * list ascii :=
  match p with
  | [] => (None, [])
  | c :: p' =>
      match split_path p' with
      | (Some d, f) => (Some (c :: d), f)
      | (None, f) => if Ascii.eqb c "/"%char then (Some [], f) else (None, c :: f)
      end
  end.

Definition starts_with_slash (s : string) : bool :=
  match s with String c _ => Ascii.eqb c "/"%char | EmptyString => false end.

Fixpoint ends_with_slash (s : string) : bool :=
  match s with
  | EmptyString => false
  | String c EmptyString => Ascii.eqb c "/"%char
  | String _ s' => ends_with_slash s'
  end.

(** [posixpath.join(a, b)] *)
Definition posix_join (a b : string) : string :=
  if starts_with_slash b then b
  else if (String.eqb a "" || ends_with_slash a)%bool then a ++ b
  else a ++ "/" ++ b.

(** [posixpath.abspath(p)] for a path with no [.], [..] or doubled slash. *)
Definition posix_abspath (cwd p : string) : string :=
  if starts_with_slash p then p else posix_join cwd p.

Definition dir_table := list (string * list string).

Fixpoint listdir (tbl : dir_table) (d : string) : list string :=
  match tbl with
  | [] => []
  | (d', entries) :: tbl' => if String.eqb d d' then entries else listdir tbl' d
  end.

Definition posix_glob (tbl : dir_table) (pathname : string) : list string :=
  match split_path (list_ascii_of_string pathname) with
  | (Some d, pat) =>
      let dirname := string_of_list_ascii d in
      map (fun name => posix_join dirname name)
          (filter (fun name => Is_true (fnmatch pat (list_ascii_of_string name)))
                  (listdir tbl dirname))
  | (None, _) => []
  end.

Definition posix_host (cwd : string) (tbl : dir_table) : Host :=
  {| os_path_abspath := posix_abspath cwd;
     os_path_join := posix_join;
     glob_glob := posix_glob tbl |}.

(** The directory of the scenario, enumerated in no particular order. *)
Definition scenario_dir : dir_table :=
  [("/data", ["img_001_b.png"; "img_000_a.png"; "img_001_a.png"; "img_000_b.png"])].

Definition scenario_host : Host := posix_host "/home/user" scenario_dir.

(** ** Recording the calls

    [traced func] is [func] with a log of its calls beside the world:
    every call appends its argument, whether it returns or raises. *)
Definition traced {W} (func : callable W) : callable (W * list image_pair) :=
  fun image_pair '(w, calls) =>
    let '(r, w') := func image_pair w in (r, (w', calls ++ [image_pair])).

(** ** Concrete cases *)

(** Directories for the concrete cases. *)
Definition three_a_two_b : dir_table :=
  [("/data", ["img_000_a.png"; "img_000_b.png"; "img_001_a.png";
              "img_001_b.png"; "img_002_a.png"])].

Definition only_b : dir_table :=
  [("/data", ["img_000_b.png"; "img_001_b.png"; "img_002_b.png"])].

Definition scenario_dir_reordered : dir_table :=
  [("/data", ["img_000_a.png"; "img_000_b.png"; "img_001_a.png"; "img_001_b.png"])].

Definition overlapping_dir : dir_table :=
  [("/data", ["b.png"; "ab.png"; "a.png"])].

(** Ten files: five pairs. *)
Definition five_pairs_dir : dir_table :=
  [("/data", ["img_000_a.png"; "img_000_b.png"; "img_001_a.png"; "img_001_b.png";
              "img_002_a.png"; "img_002_b.png"; "img_003_a.png"; "img_003_b.png";
              "img_004_a.png"; "img_004_b.png"])].

Definition five_pairs : Multiprocesser.t :=
  Multiprocesser.Self
    ["/data/img_000_a.png"; "/data/img_001_a.png"; "/data/img_002_a.png";
     "/data/img_003_a.png"; "/data/img_004_a.png"]
    ["/data/img_000_b.png"; "/data/img_001_b.png"; "/data/img_002_b.png";
     "/data/img_003_b.png"; "/data/img_004_b.png"]
    5.

Definition boom : exception := Exception "RuntimeError" "boom".

(** A function that raises on the task numbered 1 and returns on the
    others. *)
Definition fails_on_1 : callable unit :=
  fun '(_, _, i) w => if (i =? 1)%nat then (Raise boom, w) else (Return, w).

(** A function that raises on every task (it cannot read the images). *)
Definition io_error : exception := Exception "IOError" "cannot read image".

Definition unreadable : callable unit := fun _ w => (Raise io_error, w).

(** A function that writes the number of its task to the world. *)
Definition write_index : callable (list nat) :=
  fun '(_, _, i) w => (Return, w ++ [i]).

(** ** The state of the pool *)

(** The batches the workers hold. *)
Definition busy (workers : list (option (list image_pair))) : list (list image_pair) :=
  omap id workers.
Arguments busy : simpl never.

(** The steps a pool can still make: a batch on the task queue is taken,
    called item by item, put and handled. *)
Definition measure {W} (s : Pool.t W) : nat :=
  sum_list_with (fun c => length c + 3) (Pool.taskqueue s)
  + sum_list_with (fun c => length c + 2) (busy (Pool.workers s))
  + length (Pool.outqueue s).

(** What the [MapResult] counts: while it is not ready, the batches
    not yet handled; when it is ready with success, nothing is left
    anywhere. *)
Definition counted {W} (s : Pool.t W) : Prop :=
  match Pool.ready s with
  | None =>
      0 < Pool.number_left s
      /\ Pool.number_left s
         = length (Pool.taskqueue s) + length (busy (Pool.workers s))
           + length (Pool.outqueue s)
  | Some Return =>
      Pool.taskqueue s = [] /\ busy (Pool.workers s) = []
      /\ Pool.outqueue s = []
  | Some (Raise _) => True
  end.

(** The calls made so far. *)
Definition calls {W} (s : Pool.t (W * list image_pair)) : list image_pair :=
  snd (Pool.world s).

(** The items not called yet: on the task queue or held by a worker. *)
Definition pending {W} (s : Pool.t (W * list image_pair)) : list image_pair :=
  concat (Pool.taskqueue s) ++ concat (busy (Pool.workers s)).

(** No batch has failed. *)
Definition no_failure {W} (s : Pool.t (W * list image_pair)) : Prop :=
  Forall (fun r => r = Return) (Pool.outqueue s)
  /\ forall e, Pool.ready s <> Some (Raise e).

Definition returned {W} (func : callable W) (x : image_pair) : Prop :=
  exists w0 w1, func x w0 = (Return, w1).

Definition raised {W} (func : callable W) (e : exception) (x : image_pair) : Prop :=
  exists w0 w1, func x w0 = (Raise e, w1).

(** - No item is called twice, and none that was not submitted.
    - As long as no batch has failed, every item is either called
      already, and its call returned, or still to be called.
    - An exception on the result queue, or in the result, was raised by
      a call that was made. *)
Definition traced_inv {W} (func : callable W) (iterable : list image_pair)
    (s : Pool.t (W * list image_pair)) : Prop :=
  calls s ++ pending s ⊆+ iterable
  /\ (no_failure s ->
      calls s ++ pending s ≡ₚ iterable /\ Forall (returned func) (calls s))
  /\ (forall e, In (Raise e) (Pool.outqueue s) \/ Pool.ready s = Some (Raise e) ->
        exists x, In x (calls s) /\ raised func e x).

(** ** Images: [negative] and [imsave]

    An image is a two-dimensional array of [np.int32], as [imread]
    returns it ([astype(np.int32)]): its rows, each a list of integers.
    Arithmetic on [np.int32] wraps around. *)

Definition ndarray : Type := list (list Z).

(** The value of an integer stored in an [np.int32]. *)
Definition int32 (z : Z) : Z := ((z + 2147483648) mod 4294967296 - 2147483648)%Z.

Definition in_int32 (z : Z) : Prop := (-2147483648 <= z < 2147483648)%Z.

(** [negative(image)]: [255 - image], element by element. *)
Definition negative (image : ndarray) : ndarray :=
  List.map (List.map (fun p => int32 (255 - p))) image.

Definition msg_zero_size (op : string) : string :=
  ("zero-size array to reduction operation " ++ op ++ " which has no identity")%string.

(** [np.amax(arr)] and [np.amin(arr)]: over all the elements; an array
    with no element has no maximum. *)
Definition np_amax (arr : ndarray) : exception + Z :=
  match concat arr with
  | [] => inl (ValueError (msg_zero_size "maximum"))
  | p :: ps => inr (fold_left Z.max ps p)
  end.

Definition np_amin (arr : ndarray) : exception + Z :=
  match concat arr with
  | [] => inl (ValueError (msg_zero_size "minimum"))
  | p :: ps => inr (fold_left Z.min ps p)
  end.

Definition msg_grey_levels : string :=
  "please provide a 2d array of grey levels (value in [0, 255])".

(** [imsave(filename, arr)]. [scipy.misc.imsave], which writes the file,
    is the host's. [and] evaluates [np.amin] only when the first test
    holds. *)
Definition imsave {W} (scipy_misc_imsave : string -> ndarray -> W -> result * W)
    (filename : string) (arr : ndarray) (w : W) : result * W :=
  match np_amax arr with
  | inl e => (Raise e, w)
  | inr amax =>
      if (amax <? 256)%Z then
        match np_amin arr with
        | inl e => (Raise e, w)
        | inr amin =>
            if (amin >=? 0)%Z then scipy_misc_imsave filename arr w
            else (Raise (ValueError msg_grey_levels), w)
        end
      else (Raise (ValueError msg_grey_levels), w)
  end.

(** ** The flow field writer: [save]

    The numbers of a flow field are floating-point numbers, of a type
    [A] left open; [fmt v] stands for [fmt % v], the text of one
    number. *)

(** [m.ravel()] of a two-dimensional array: its elements, row by row. *)
Definition ravel {A} (m : list (list A)) : list A := concat m.

Definition msg_vstack : string :=
  "all the input array dimensions except for the concatenation axis must match exactly".

(** [np.vstack(tup)] of one-dimensional arrays: they become the rows of
    the result, and must have one length. *)
Definition np_vstack {A} (tup : list (list A)) : exception + list (list A) :=
  match tup with
  | [] => inl (ValueError "need at least one array to concatenate")
  | a :: rest =>
      if forallb (fun b => (length b =? length a)%nat) rest then inr tup
      else inl (ValueError msg_vstack)
  end.

(** [out.T]: column [j] of [out] becomes row [j]. *)
Definition transpose {A} (out : list (list A)) : list (list A) :=
  match out with
  | [] => []
  | a :: _ => List.map (fun j => omap (fun row => row !! j) out) (seq 0 (length a))
  end.

Definition newline : string := String "010"%char EmptyString.

(** [np.savetxt(fname, X, fmt, delimiter)]: one write per row of [X], the
    numbers of the row joined by the delimiter and ended by a newline.
    The file, which receives the writes in order, is the host's. *)
Definition np_savetxt {A W} (write_file : string -> list string -> W -> result * W)
    (fname : string) (X : list (list A)) (fmt : A -> string) (delimiter : string)
    (w : W) : result * W :=
  write_file fname
    (List.map (fun row => (String.concat delimiter (List.map fmt row) ++ newline)%string)
              X) w.

(** [save(x, y, u, v, mask, filename, fmt, delimiter)]. The mask is an
    array of booleans, which [np.vstack] turns into numbers. *)
Definition save {A W} (write_file : string -> list string -> W -> result * W)
    (of_bool : bool -> A)
    (x y u v : list (list A)) (mask : list (list bool))
    (filename : string) (fmt : A -> string) (delimiter : string) (w : W)
  : result * W :=
  match np_vstack [ravel x; ravel y; ravel u; ravel v;
                   List.map of_bool (ravel mask)] with
  | inl e => (Raise e, w)
  | inr out => np_savetxt write_file filename (transpose out) fmt delimiter w
  end.

(** ** Standard output: [display] *)

(** [sys.stdout]: what has reached the terminal, and what waits in the
    buffer. *)
Record stdout := Stdout { flushed : string; buffered : string }.

Definition sys_stdout_write (s : string) (out : stdout) : stdout :=
  Stdout (flushed out) (buffered out ++ s)%string.

Definition sys_stdout_flush (out : stdout) : stdout :=
  Stdout (flushed out ++ buffered out)%string "".

(** [display(message)] *)
Definition display (message : string) (out : stdout) : stdout :=
  sys_stdout_flush (sys_stdout_write newline (sys_stdout_write message out)).

(** ** The map of the interrogation windows: [display_windows_sampling]

    The coordinates are numbers of a type [A] left open, from which an
    integer can be subtracted; the window size and [skip] are Python
    integers, so that [/] is the floor division and [%] its remainder.
    What the function does is a sequence of calls to the plotting
    library. *)

Inductive plot_call (A : Type) : Type :=
| pl_figure
| pl_hold (b : bool)
| set_window_title (title : string)
(** [pl.scatter(x, y, color=...)] *)
| pl_scatter (x y : list (list A)) (color : string)
(** [pl.gca().add_patch(pt.Rectangle((x1, y1), width, height,
    facecolor='r', alpha=0.5))] *)
| add_patch_Rectangle (x1 y1 : A) (width height : Z)
| pl_draw
| pl_show.
Arguments pl_figure {A}.
Arguments pl_hold {A}.
Arguments set_window_title {A}.
Arguments pl_scatter {A}.
Arguments add_patch_Rectangle {A}.
Arguments pl_draw {A}.
Arguments pl_show {A}.

Definition IndexError : exception := Exception "IndexError" "index out of bounds".

(** [l[i]] on an array. *)
Definition getitem {B} (l : list B) (i : nat) : exception + B :=
  match l !! i with
  | Some b => inr b
  | None => inl IndexError
  end.

(** [str(n)] of an integer. *)
Definition str (n : Z) : string := NilZero.string_of_int (Z.to_int n).

(** [for b in l: body(b)]: the calls made, and how the loop ends. *)
Fixpoint for_in {A B} (body : B -> list (plot_call A) * result) (l : list B)
  : list (plot_call A) * result :=
  match l with
  | [] => ([], Return)
  | b :: l' =>
      match body b with
      | (calls, Return) => let '(calls', r) := for_in body l' in (calls ++ calls', r)
      | (calls, Raise e) => (calls, Raise e)
      end
  end.

Definition msg_method : string :=
  "method not valid: choose between standard and random".

Section WindowsSampling.
Context {A R : Type}.
(** [v - n] for a coordinate and an integer *)
Context (sub : A -> Z -> A).
(** [np.random.randint(n)] on the state of the generator *)
Context (randint : nat -> R -> nat * R).

(** The two assignments and the [add_patch] of the three loops, for the
    column [i] of [x[0]] and the row [j] of [y]. *)
Definition add_window (x y : list (list A)) (window_size : Z) (i j : nat)
  : list (plot_call A) * result :=
  match getitem x 0 with
  | inl e => ([], Raise e)
  | inr x0 =>
      match getitem x0 i with
      | inl e => ([], Raise e)
      | inr xi =>
          let x1 := sub xi (window_size / 2)%Z in
          match getitem y j with
          | inl e => ([], Raise e)
          | inr yj =>
              match getitem yj 0 with
              | inl e => ([], Raise e)
              | inr yj0 =>
                  let y1 := sub yj0 (window_size / 2)%Z in
                  ([add_patch_Rectangle x1 y1 window_size window_size], Return)
              end
          end
      end
  end.

(** The body of the two nested loops of the standard method. *)
Definition standard_body (x y : list (list A)) (window_size skip : Z) (i j : nat)
  : list (plot_call A) * result :=
  if (Z.of_nat j mod 2 =? 0)%Z then
    if (Z.of_nat i mod (skip + 1) =? 0)%Z then add_window x y window_size i j
    else ([], Return)
  else
    if ((Z.of_nat i mod (skip + 1) =? 1) || (skip =? 0))%Z
    then add_window x y window_size i j
    else ([], Return).

(** The loop of the random method: [n] rounds, each drawing a column
    and a row. *)
Fixpoint random_loop (x y : list (list A)) (window_size : Z) (len_x0 len_y : nat)
    (n : nat) (rng : R) : list (plot_call A) * result :=
  match n with
  | 0 => ([], Return)
  | S n' =>
      let '(k, rng) := randint len_x0 rng in
      let '(l, rng) := randint len_y rng in
      match add_window x y window_size k l with
      | (calls, Return) =>
          let '(calls', r) := random_loop x y window_size len_x0 len_y n' rng in
          (calls ++ calls', r)
      | (calls, Raise e) => (calls, Raise e)
      end
  end.

(** [display_windows_sampling(x, y, window_size, skip, method)] *)
Definition display_windows_sampling (x y : list (list A)) (window_size skip : Z)
    (method : string) (rng : R) : list (plot_call A) * result :=
  let finish (calls : list (plot_call A)) := (calls ++ [pl_draw; pl_show], Return) in
  let points_map :=
    finish [pl_figure; pl_hold true;
            set_window_title "interrogation points map"; pl_scatter x y "g"] in
  if (skip <? 0)%Z then points_map
  else
    match getitem x 0 with
    | inl e => ([pl_figure; pl_hold true], Raise e)
    | inr x0 =>
        if (skip + 1 >? Z.of_nat (length x0) * Z.of_nat (length y))%Z then points_map
        else
          let nb_windows :=
            (Z.of_nat (length x0) * Z.of_nat (length y) / (skip + 1))%Z in
          if String.eqb method "standard" then
            let '(calls, r) :=
              for_in (fun i => for_in (standard_body x y window_size skip i)
                                      (seq 0 (length y)))
                     (seq 0 (length x0)) in
            let calls :=
              [pl_figure; pl_hold true; pl_scatter x y "g";
               set_window_title "interrogation window map"] ++ calls in
            match r with
            | Return => finish calls
            | Raise e => (calls, Raise e)
            end
          else if String.eqb method "random" then
            let '(calls, r) :=
              random_loop x y window_size (length x0) (length y)
                          (Z.to_nat nb_windows) rng in
            let calls :=
              [pl_figure; pl_hold true; pl_scatter x y "g";
               set_window_title
                 ("interrogation window map, showing randomly "
                  ++ str nb_windows ++ " windows")%string] ++ calls in
            match r with
            | Return => finish calls
            | Raise e => (calls, Raise e)
            end
          else ([pl_figure; pl_hold true], Raise (ValueError msg_method))
    end.

End WindowsSampling.

(** ** Concrete cases for the utilities *)

(** A host function that records the file written. *)
Definition record_write {C} (filename : string) (content : C)
    (w : list (string * C)) : result * list (string * C) :=
  (Return, w ++ [(filename, content)]).

(** A number in decimal, for the examples. *)
Definition fmt_d (v : Z) : string := str v.

Definition tab : string := String "009"%char EmptyString.

(** The rectangle of the window at column [i] of [x[0]] and row [j] of
    [y]: its lower left corner is half a window size (floor division)
    below and left of the point [(x[0][i], y[j][0])]. *)
Definition is_window {A} (sub : A -> Z -> A) (x0 : list A) (y : list (list A))
    (window_size : Z) (ij : nat * nat) (call : plot_call A) : Prop :=
  exists xi yj yj0,
    x0 !! fst ij = Some xi /\ y !! snd ij = Some yj /\ yj !! 0 = Some yj0
    /\ call = add_patch_Rectangle (sub xi (window_size / 2)%Z)
                (sub yj0 (window_size / 2)%Z) window_size window_size.

(** The windows of the standard method: all of them when [skip] is 0,
    otherwise, in a row, one column out of [skip + 1], starting at
    column 0 in the even rows and at column 1 in the odd rows. *)
Definition drawn (skip : Z) (ij : nat * nat) : bool :=
  ((skip =? 0) || (Z.of_nat (fst ij) mod (skip + 1) =? Z.of_nat (snd ij) mod 2))%Z.

(** A generator for the examples: a counter. *)
Definition counter_randint (n : nat) (r : nat) : nat * nat := (r mod n, S r).

(** ** The display of a vector field: [display_vector_field]

    The numbers of the field are floating-point numbers, of a type [F]
    left open. The function reads files, writes the file neg.jpg and
    calls the plotting library: a computation over the calls made so far
    and the world, which may raise. *)

Definition plotting (C W X : Type) : Type :=
  list C * W -> (exception + X) * (list C * W).

Definition ret {C W X} (x : X) : plotting C W X := fun s => (inr x, s).

Definition bind {C W X Y} (c : plotting C W X) (k : X -> plotting C W Y)
  : plotting C W Y :=
  fun s => match c s with
           | (inr x, s') => k x s'
           | (inl e, s') => (inl e, s')
           end.

(** A call to the plotting library. *)
Definition emit {C W} (call : C) : plotting C W unit :=
  fun '(calls, w) => (inr tt, (calls ++ [call], w)).

(** A value, or the exception its computation raised. *)
Definition lift {C W X} (v : exception + X) : plotting C W X := fun s => (v, s).

(** A host function that reads the world. *)
Definition reading {C W X} (f : W -> exception + X) : plotting C W X :=
  fun '(calls, w) => (f w, (calls, w)).

(** A host function that changes the world. *)
Definition acting {C W} (f : W -> result * W) : plotting C W unit :=
  fun '(calls, w) =>
    match f w with
    | (Return, w') => (inr tt, (calls, w'))
    | (Raise e, w') => (inl e, (calls, w'))
    end.

Declare Scope plotting_scope.
Delimit Scope plotting_scope with plotting.
Notation "x <- c ;; k" := (bind c (fun x => k))
  (at level 100, c at next level, right associativity) : plotting_scope.
Notation "c ;; k" := (bind c (fun _ => k))
  (at level 100, right associativity) : plotting_scope.

(** An array read by [np.loadtxt]: one-dimensional, or two-dimensional
    with its number of columns and its rows. *)
Inductive array (F : Type) : Type :=
| Array1 (values : list F)
| Array2 (ncols : nat) (rows : list (list F)).
Arguments Array1 {F}.
Arguments Array2 {F}.

Definition too_many_indices : exception :=
  Exception "IndexError" "too many indices".

(** [a[:, c]] *)
Definition column {F} (a : array F) (c : nat) : exception + list F :=
  match a with
  | Array1 _ => inl too_many_indices
  | Array2 ncols rows =>
      if (c <? ncols)%nat then
        match mapM (fun row : list F => row !! c) rows with
        | Some col => inr col
        | None => inl IndexError
        end
      else inl IndexError
  end.

Arguments column : simpl never.

(** [col[mask]]: the elements where the mask holds. *)
Fixpoint select {F} (mask : list bool) (col : list F) : list F :=
  match mask, col with
  | m :: mask', v :: col' => if m then v :: select mask' col' else select mask' col'
  | _, _ => []
  end.

(** [a[mask, c]] *)
Definition masked_column {F} (a : array F) (mask : list bool) (c : nat)
  : exception + list F :=
  match column a c with
  | inl e => inl e
  | inr col => inr (select mask col)
  end.

(** [np.amax] of a one-dimensional array of numbers whose maximum of
    two is [fmax]. *)
Definition amax_with {F} (fmax : F -> F -> F) (l : list F) : exception + F :=
  match l with
  | [] => inl (ValueError (msg_zero_size "maximum"))
  | v :: l' => inr (fold_left fmax l' v)
  end.

Arguments amax_with : simpl never.

Definition ZeroDivisionError : exception :=
  Exception "ZeroDivisionError" "integer division or modulo by zero".

(** [n / d] on Python integers. *)
Definition floordiv (n d : Z) : exception + Z :=
  if (d =? 0)%Z then inl ZeroDivisionError else inr (n / d)%Z.

(** [np.count_nonzero(mask)] *)
Definition count_nonzero (mask : list bool) : nat :=
  length (List.filter (fun b : bool => b) mask).

(** [imread(filename, flatten)]: the image [scipy.misc.imread] decodes,
    its values (integers, or numbers whose fraction [astype] drops)
    stored as [np.int32]. *)
Definition imread {W} (scipy_misc_imread : string -> Z -> W -> exception + ndarray)
    (filename : string) (flatten : Z) (w : W) : exception + ndarray :=
  match scipy_misc_imread filename flatten w with
  | inl e => inl e
  | inr image => inr (List.map (List.map int32) image)
  end.

Inductive field_call (F IMG K : Type) : Type :=
| vf_figure
| vf_hold (b : bool)
(** [pl.imshow(im, origin='lower', cmap="Greys_r",
    extent=[0., xmax, 0., ymax])] *)
| vf_imshow (im : IMG) (xmax ymax : F)
| vf_set_window_title (title : string)
(** [pl.quiver(x, y, u, v, color=..., **kw)] *)
| vf_quiver (x y u v : list F) (color : string) (kw : K)
| vf_draw
| vf_show.
Arguments vf_figure {F IMG K}.
Arguments vf_hold {F IMG K}.
Arguments vf_imshow {F IMG K}.
Arguments vf_set_window_title {F IMG K}.
Arguments vf_quiver {F IMG K}.
Arguments vf_draw {F IMG K}.
Arguments vf_show {F IMG K}.

Section VectorField.
Context {F IMG K W : Type}.
(** [astype('bool')] of a number, the maximum of two numbers, and the
    sum of a number and an integer *)
Context (nonzero : F -> bool) (fmax : F -> F -> F) (add_int : F -> Z -> F).
Context (np_loadtxt : string -> W -> exception + array F).
Context (scipy_misc_imread : string -> Z -> W -> exception + ndarray).
Context (scipy_misc_imsave : string -> ndarray -> W -> result * W).
Context (mpltimg_imread : string -> W -> exception + IMG).

Local Open Scope plotting_scope.

(** [np.amax(a[:,c]) + window_size/(2*scaling_factor)], for integers
    [window_size] and [scaling_factor]. *)
Definition extent_max (a : array F) (c : nat) (window_size scaling_factor : Z)
  : plotting (field_call F IMG K) W F :=
  col <- lift (column a c) ;;
  m <- lift (amax_with fmax col) ;;
  margin <- lift (floordiv window_size (2 * scaling_factor)) ;;
  ret (add_int m margin).

(** The block under [if on_img:] (lines 80 to 86). *)
Definition show_background (a : array F) (image_name : string)
    (window_size scaling_factor : Z) : plotting (field_call F IMG K) W unit :=
  im <- reading (imread scipy_misc_imread image_name 0) ;;
  let im := negative im in
  acting (imsave scipy_misc_imsave "neg.jpg" im) ;;
  im <- reading (mpltimg_imread "neg.jpg") ;;
  xmax <- extent_max a 0 window_size scaling_factor ;;
  ymax <- extent_max a 1 window_size scaling_factor ;;
  emit (vf_imshow im xmax ymax).

(** The vectors, the wrong ones in red (lines 87 to 93). *)
Definition show_vectors (a : array F) (kw : K)
  : plotting (field_call F IMG K) W unit :=
  col4 <- lift (column a 4) ;;
  let invalid := List.map nonzero col4 in
  emit (vf_set_window_title
          ("Vector field, " ++ str (Z.of_nat (count_nonzero invalid))
           ++ " wrong vectors")%string) ;;
  let valid := List.map negb invalid in
  x <- lift (masked_column a invalid 0) ;;
  y <- lift (masked_column a invalid 1) ;;
  u <- lift (masked_column a invalid 2) ;;
  v <- lift (masked_column a invalid 3) ;;
  emit (vf_quiver x y u v "r" kw) ;;
  x <- lift (masked_column a valid 0) ;;
  y <- lift (masked_column a valid 1) ;;
  u <- lift (masked_column a valid 2) ;;
  v <- lift (masked_column a valid 3) ;;
  emit (vf_quiver x y u v "b" kw) ;;
  emit vf_draw ;;
  emit vf_show.

(** [display_vector_field(filename, on_img, image_name, window_size,
    scaling_factor, **kw)], for integers [window_size] and
    [scaling_factor]. *)
Definition display_vector_field (filename : string) (on_img : bool)
    (image_name : string) (window_size scaling_factor : Z) (kw : K)
  : plotting (field_call F IMG K) W unit :=
  a <- reading (np_loadtxt filename) ;;
  emit vf_figure ;;
  emit (vf_hold true) ;;
  (if on_img then show_background a image_name window_size scaling_factor
   else ret tt) ;;
  show_vectors a kw.

End VectorField.

(** Column [c] of some rows, and the rows whose fifth number marks a
    wrong vector. *)
Definition col {F} (c : nat) (rows : list (list F)) : list F :=
  List.flat_map (fun row => option_list (row !! c)) rows.

Definition wrong {F} (nonzero : F -> bool) (row : list F) : bool :=
  match row !! 4 with
  | Some v => nonzero v
  | None => false
  end.
Arguments wrong : simpl never.

(** The calls that show the vectors of a well-formed array. *)
Definition vector_calls {F IMG K} (nonzero : F -> bool) (rows : list (list F)) (kw : K)
  : list (field_call F IMG K) :=
  [vf_set_window_title
     ("Vector field, "
      ++ str (Z.of_nat (length (List.filter (wrong nonzero) rows)))
      ++ " wrong vectors")%string;
   vf_quiver (col 0 (List.filter (wrong nonzero) rows))
             (col 1 (List.filter (wrong nonzero) rows))
             (col 2 (List.filter (wrong nonzero) rows))
             (col 3 (List.filter (wrong nonzero) rows)) "r" kw;
   vf_quiver (col 0 (List.filter (fun row => negb (wrong nonzero row)) rows))
             (col 1 (List.filter (fun row => negb (wrong nonzero row)) rows))
             (col 2 (List.filter (fun row => negb (wrong nonzero row)) rows))
             (col 3 (List.filter (fun row => negb (wrong nonzero row)) rows)) "b" kw;
   vf_draw; vf_show].

(** Hosts for the examples: the field file and the image file are fixed,
    and the files written are recorded. *)
Definition field_3 : array Z :=
  Array2 5 [[1; 2; 3; 4; 0]; [5; 6; 7; 8; 1]; [9; 10; 11; 12; 0]]%Z.

Definition loadtxt_3 (filename : string) (w : list (string * ndarray))
  : exception + array Z := inr field_3.

Definition loadtxt_1 (filename : string) (w : list (string * ndarray))
  : exception + array Z := inr (Array1 [1; 2; 3; 4; 0]%Z).

Definition imread_8bit (filename : string) (flatten : Z)
    (w : list (string * ndarray)) : exception + ndarray :=
  inr [[0; 255]; [7; 30]]%Z.

Definition imread_16bit (filename : string) (flatten : Z)
    (w : list (string * ndarray)) : exception + ndarray :=
  inr [[0; 255]; [7; 300]]%Z.

Definition read_back (filename : string) (w : list (string * ndarray))
  : exception + ndarray :=
  match w with
  | (_, image) :: _ => inr image
  | [] => inl (Exception "IOError" "No such file or directory")
  end.

Definition nonzeroZ (v : Z) : bool := negb (v =? 0)%Z.

(** * Properties *)

(** ** The order on [str] *)

Lemma ascii_compare_Lt a b :
  Ascii.compare a b = Lt <-> (N_of_ascii a < N_of_ascii b)%N.
Proof. unfold Ascii.compare. apply N.compare_lt_iff. Qed.

Lemma ascii_compare_Eq a b : Ascii.compare a b = Eq <-> a = b.
Proof.
  split; [apply Ascii.compare_eq_iff|].
  intros ->. unfold Ascii.compare. apply N.compare_refl.
Qed.

Lemma str_compare_trans_le s1 : forall s2 s3,
  String.compare s1 s2 <> Gt -> String.compare s2 s3 <> Gt ->
  String.compare s1 s3 <> Gt.
Proof.
  induction s1 as [|a s1 IH]; intros [|b s2] [|c s3]; simpl; try congruence.
  destruct (Ascii.compare a b) eqn:Hab; try congruence;
    destruct (Ascii.compare b c) eqn:Hbc; try congruence.
  - apply ascii_compare_Eq in Hab, Hbc. subst.
    rewrite (proj2 (ascii_compare_Eq c c) eq_refl). apply IH.
  - apply ascii_compare_Eq in Hab. subst. now rewrite Hbc.
  - apply ascii_compare_Eq in Hbc. subst. now rewrite Hab.
  - rewrite ascii_compare_Lt in Hab, Hbc.
    assert (Hac : Ascii.compare a c = Lt) by (apply ascii_compare_Lt; lia).
    now rewrite Hac.
Qed.

Lemma str_le_compare s1 s2 : str_le s1 s2 <-> String.compare s1 s2 <> Gt.
Proof. unfold str_le, String.leb. destruct (String.compare s1 s2); intuition congruence. Qed.

#[global] Instance str_le_trans : Transitive str_le.
Proof. intros s1 s2 s3. rewrite !str_le_compare. apply str_compare_trans_le. Qed.

#[global] Instance str_le_antisym : AntiSymm (=) str_le.
Proof. intros s1 s2. apply String.leb_antisym. Qed.

#[global] Instance str_le_total : Total str_le.
Proof. intros s1 s2. apply String.leb_total. Qed.

(** ** [sorted] *)

Lemma sorted_Permutation l : sorted l ≡ₚ l.
Proof. apply merge_sort_Permutation. Qed.

Lemma sorted_Sorted l : Sorted str_le (sorted l).
Proof. apply (Sorted_merge_sort str_le). Qed.

Lemma sorted_length l : length (sorted l) = length l.
Proof. now rewrite sorted_Permutation. Qed.

(** The sorted list does not depend on the order of its input. *)
Lemma sorted_unique l1 l2 : l1 ≡ₚ l2 -> sorted l1 = sorted l2.
Proof.
  intros H. apply (Sorted_unique str_le); auto using sorted_Sorted.
  now rewrite !sorted_Permutation.
Qed.

(** ** [zip] over [xrange] *)

Lemma zip_seq_length {A B} (la : list A) (lb : list B) : forall k n,
  length la = n -> length lb = n -> length (zip la lb (seq k n)) = n.
Proof.
  revert lb. induction la as [|a la IH]; intros [|b lb] k [|n]; simpl; try lia.
  intros Ha Hb. f_equal. apply IH; lia.
Qed.

Lemma zip_seq_lookup {A B} (la : list A) (lb : list B) : forall k n i a b,
  la !! i = Some a -> lb !! i = Some b -> i < n ->
  zip la lb (seq k n) !! i = Some (a, b, k + i).
Proof.
  revert lb. induction la as [|x la IH]; intros [|y lb] k [|n] [|i] a b;
    simpl; try discriminate; try lia.
  - intros [= ->] [= ->] _. do 2 f_equal. lia.
  - intros Ha Hb Hi. rewrite (IH lb (S k) n i a b) by (auto; lia).
    do 2 f_equal. lia.
Qed.

(** ** Construction *)

(** The three ways [__init__] ends, by the two numbers of matches. *)
Lemma init_cases h data_dir pattern_a pattern_b :
  let A := sorted (glob_glob h (os_path_join h (os_path_abspath h data_dir) pattern_a)) in
  let B := sorted (glob_glob h (os_path_join h (os_path_abspath h data_dir) pattern_b)) in
  (length A <> length B /\
   Multiprocesser.__init__ h data_dir pattern_a pattern_b
   = inl (ValueError msg_equal_number))
  \/ (length A = length B /\ length A = 0 /\
      Multiprocesser.__init__ h data_dir pattern_a pattern_b
      = inl (ValueError msg_no_images))
  \/ (length A = length B /\ 0 < length A /\
      Multiprocesser.__init__ h data_dir pattern_a pattern_b
      = inr (Multiprocesser.Self A B (length A))).
Proof.
  intros A B. unfold Multiprocesser.__init__. fold A B.
  destruct (Nat.eqb_spec (length A) (length B)) as [Hab|Hab]; simpl.
  - destruct (Nat.eqb_spec (length A) 0) as [H0|H0]; simpl.
    + right; left; auto.
    + right; right. repeat split; auto; lia.
  - left; auto.
Qed.

Lemma init_inr h data_dir pattern_a pattern_b self :
  Multiprocesser.__init__ h data_dir pattern_a pattern_b = inr self ->
  Multiprocesser.files_a self
    = sorted (glob_glob h (os_path_join h (os_path_abspath h data_dir) pattern_a))
  /\ Multiprocesser.files_b self
    = sorted (glob_glob h (os_path_join h (os_path_abspath h data_dir) pattern_b))
  /\ Multiprocesser.n_files self = length (Multiprocesser.files_a self)
  /\ length (Multiprocesser.files_a self) = length (Multiprocesser.files_b self)
  /\ 0 < length (Multiprocesser.files_a self).
Proof.
  intros H.
  destruct (init_cases h data_dir pattern_a pattern_b)
    as [[_ E]|[(_ & _ & E)|(Hab & H0 & E)]];
    rewrite E in H; try discriminate.
  injection H as <-. simpl. auto.
Qed.

(** C1: when construction succeeds, the tasks are as many as the files
    of each sorted set, and task [i] is the [i]-th file of the first
    set, the [i]-th file of the second set, and [i]. For the directory
    with img_000_a.png, img_001_a.png, img_000_b.png and img_001_b.png
    and the patterns img_*_a.png and img_*_b.png the tasks are those two
    pairs of files (as paths under the absolute directory), numbered 0
    and 1. *)
Theorem C1_work_items :
  (forall h data_dir pattern_a pattern_b self,
      Multiprocesser.__init__ h data_dir pattern_a pattern_b = inr self ->
      Multiprocesser.files_a self
        = sorted (glob_glob h (os_path_join h (os_path_abspath h data_dir) pattern_a))
      /\ Multiprocesser.files_b self
        = sorted (glob_glob h (os_path_join h (os_path_abspath h data_dir) pattern_b))
      /\ length (Multiprocesser.image_pairs self) = length (Multiprocesser.files_a self)
      /\ length (Multiprocesser.files_a self) = length (Multiprocesser.files_b self)
      /\ (forall i, i < length (Multiprocesser.image_pairs self) ->
            exists a b,
              Multiprocesser.files_a self !! i = Some a
              /\ Multiprocesser.files_b self !! i = Some b
              /\ Multiprocesser.image_pairs self !! i = Some (a, b, i)))
  /\ (exists self,
        Multiprocesser.__init__ scenario_host "/data" "img_*_a.png" "img_*_b.png"
          = inr self
        /\ Multiprocesser.image_pairs self
           = [("/data/img_000_a.png", "/data/img_000_b.png", 0);
              ("/data/img_001_a.png", "/data/img_001_b.png", 1)]).
Proof.
  split.
  - intros h data_dir pattern_a pattern_b self Hinit.
    destruct (init_inr _ _ _ _ _ Hinit) as (Ha & Hb & Hn & Hab & Hpos).
    assert (Hlen : length (Multiprocesser.image_pairs self)
                   = length (Multiprocesser.files_a self)).
    { unfold Multiprocesser.image_pairs, xrange. rewrite Hn.
      apply zip_seq_length; auto. }
    repeat split; auto.
    intros i Hi. rewrite Hlen in Hi.
    destruct (lookup_lt_is_Some_2 (Multiprocesser.files_a self) i Hi) as [a Ea].
    destruct (lookup_lt_is_Some_2 (Multiprocesser.files_b self) i) as [b Eb]; [lia|].
    exists a, b. repeat split; auto.
    unfold Multiprocesser.image_pairs, xrange. rewrite Hn.
    apply (zip_seq_lookup _ _ 0); auto.
  - eexists. split; vm_compute; reflexivity.
Qed.

(** C2: when the two patterns match different numbers of files,
    [__init__] raises the ValueError about the equal number of files; no
    object is built, so no list of tasks exists and [run] cannot be
    called. *)
Theorem C2_mismatched_counts h data_dir pattern_a pattern_b :
  length (glob_glob h (os_path_join h (os_path_abspath h data_dir) pattern_a))
  <> length (glob_glob h (os_path_join h (os_path_abspath h data_dir) pattern_b)) ->
  Multiprocesser.__init__ h data_dir pattern_a pattern_b
    = inl (ValueError msg_equal_number)
  /\ (forall self, Multiprocesser.__init__ h data_dir pattern_a pattern_b <> inr self).
Proof.
  intros Hne.
  destruct (init_cases h data_dir pattern_a pattern_b)
    as [[_ E]|[(Hab & _)|(Hab & _)]].
  - rewrite E. split; [reflexivity|discriminate].
  - rewrite !sorted_length in Hab. contradiction.
  - rewrite !sorted_length in Hab. contradiction.
Qed.

(** Three first frames and two second frames. *)
Lemma C2_mismatched_counts_witness :
  length (glob_glob (posix_host "/" three_a_two_b) "/data/img_*_a.png") = 3
  /\ length (glob_glob (posix_host "/" three_a_two_b) "/data/img_*_b.png") = 2
  /\ Multiprocesser.__init__ (posix_host "/" three_a_two_b)
       "/data" "img_*_a.png" "img_*_b.png"
     = inl (ValueError msg_equal_number).
Proof.
  split; [reflexivity|]. split; [reflexivity|].
  apply (C2_mismatched_counts (posix_host "/" three_a_two_b)
           "/data" "img_*_a.png" "img_*_b.png").
  vm_compute. discriminate.
Defined.

(** C3, as the code has it: when at least one pattern matches no file,
    [__init__] raises a ValueError. It is the one saying that no images
    were found when both patterns match nothing; when exactly one
    matches nothing the numbers differ, and the ValueError about the
    equal number of files is raised, since that test comes first. *)
Theorem C3_zero_matches h data_dir pattern_a pattern_b :
  length (glob_glob h (os_path_join h (os_path_abspath h data_dir) pattern_a)) = 0
  \/ length (glob_glob h (os_path_join h (os_path_abspath h data_dir) pattern_b)) = 0 ->
  (exists msg, Multiprocesser.__init__ h data_dir pattern_a pattern_b
               = inl (ValueError msg))
  /\ (length (glob_glob h (os_path_join h (os_path_abspath h data_dir) pattern_a))
      = length (glob_glob h (os_path_join h (os_path_abspath h data_dir) pattern_b)) ->
      Multiprocesser.__init__ h data_dir pattern_a pattern_b
      = inl (ValueError msg_no_images))
  /\ (length (glob_glob h (os_path_join h (os_path_abspath h data_dir) pattern_a))
      <> length (glob_glob h (os_path_join h (os_path_abspath h data_dir) pattern_b)) ->
      Multiprocesser.__init__ h data_dir pattern_a pattern_b
      = inl (ValueError msg_equal_number)).
Proof.
  intros Hzero.
  destruct (init_cases h data_dir pattern_a pattern_b)
    as [[Hab E]|[(Hab & H0 & E)|(Hab & H0 & E)]];
    rewrite !sorted_length in *; rewrite E.
  - split; [eauto|]. split; [intros; contradiction|reflexivity].
  - split; [eauto|]. split; [reflexivity|intros; contradiction].
  - lia.
Qed.

Lemma C3_zero_matches_witness :
  length (glob_glob (posix_host "/" only_b) "/data/img_*_a.png") = 0
  /\ Multiprocesser.__init__ (posix_host "/" only_b)
       "/data" "img_*_a.png" "img_*_b.png"
     = inl (ValueError msg_equal_number).
Proof.
  split; [reflexivity|].
  apply (C3_zero_matches (posix_host "/" only_b) "/data" "img_*_a.png" "img_*_b.png").
  - left. reflexivity.
  - vm_compute. discriminate.
Defined.

(** C3 as stated fails: the first pattern matches no file and the second
    matches three; the error raised is the one about the equal number of
    files, not the one saying that no images were found. *)
Lemma C3_counterexample :
  glob_glob (posix_host "/" only_b) "/data/img_*_a.png" = []
  /\ length (glob_glob (posix_host "/" only_b) "/data/img_*_b.png") = 3
  /\ Multiprocesser.__init__ (posix_host "/" only_b)
       "/data" "img_*_a.png" "img_*_b.png"
     = inl (ValueError msg_equal_number)
  /\ Multiprocesser.__init__ (posix_host "/" only_b)
       "/data" "img_*_a.png" "img_*_b.png"
     <> inl (ValueError msg_no_images).
Proof.
  split; [reflexivity|]. split; [reflexivity|]. split; [reflexivity|].
  vm_compute. discriminate.
Qed.

(** C5: two constructions whose globs find the same files for each
    pattern, listed in any order, end alike: the same object, hence the
    same tasks with the same numbers, or the same error. The reason is
    that each set of matches is sorted by its path strings before the
    pairing. *)
Theorem C5_deterministic h1 h2 data_dir pattern_a pattern_b :
  Permutation
    (glob_glob h1 (os_path_join h1 (os_path_abspath h1 data_dir) pattern_a))
    (glob_glob h2 (os_path_join h2 (os_path_abspath h2 data_dir) pattern_a)) ->
  Permutation
    (glob_glob h1 (os_path_join h1 (os_path_abspath h1 data_dir) pattern_b))
    (glob_glob h2 (os_path_join h2 (os_path_abspath h2 data_dir) pattern_b)) ->
  Multiprocesser.__init__ h1 data_dir pattern_a pattern_b
  = Multiprocesser.__init__ h2 data_dir pattern_a pattern_b
  /\ (forall self1 self2,
        Multiprocesser.__init__ h1 data_dir pattern_a pattern_b = inr self1 ->
        Multiprocesser.__init__ h2 data_dir pattern_a pattern_b = inr self2 ->
        Multiprocesser.image_pairs self1 = Multiprocesser.image_pairs self2
        /\ Sorted str_le (Multiprocesser.files_a self1)
        /\ Sorted str_le (Multiprocesser.files_b self1)).
Proof.
  intros Hpa Hpb.
  assert (E : Multiprocesser.__init__ h1 data_dir pattern_a pattern_b
              = Multiprocesser.__init__ h2 data_dir pattern_a pattern_b).
  { unfold Multiprocesser.__init__.
    rewrite (sorted_unique _ _ Hpa), (sorted_unique _ _ Hpb). reflexivity. }
  split; [exact E|].
  intros self1 self2 H1 H2. rewrite E, H2 in H1. injection H1 as ->.
  split; [reflexivity|].
  destruct (init_inr _ _ _ _ _ H2) as (-> & -> & _).
  split; apply sorted_Sorted.
Qed.

(** The same directory enumerated in two orders. *)
Lemma C5_deterministic_witness :
  glob_glob scenario_host "/data/img_*_b.png"
    = ["/data/img_001_b.png"; "/data/img_000_b.png"]
  /\ glob_glob (posix_host "/home/user" scenario_dir_reordered) "/data/img_*_b.png"
    = ["/data/img_000_b.png"; "/data/img_001_b.png"]
  /\ Multiprocesser.__init__ scenario_host "/data" "img_*_a.png" "img_*_b.png"
     = Multiprocesser.__init__ (posix_host "/home/user" scenario_dir_reordered)
         "/data" "img_*_a.png" "img_*_b.png".
Proof.
  split; [reflexivity|]. split; [reflexivity|].
  apply (C5_deterministic scenario_host
           (posix_host "/home/user" scenario_dir_reordered)
           "/data" "img_*_a.png" "img_*_b.png").
  - vm_compute. reflexivity.
  - vm_compute. apply perm_swap.
Defined.

(** C9: whatever makes [__init__] fail, the exception is a ValueError;
    the failure on differing numbers and the failure on no match carry
    the same class and different messages, and both happen. *)
Theorem C9_same_exception_type :
  (forall h data_dir pattern_a pattern_b e,
      Multiprocesser.__init__ h data_dir pattern_a pattern_b = inl e ->
      exc_type e = "ValueError"
      /\ (exc_msg e = msg_equal_number \/ exc_msg e = msg_no_images))
  /\ exc_type (ValueError msg_equal_number) = exc_type (ValueError msg_no_images)
  /\ msg_equal_number <> msg_no_images
  /\ Multiprocesser.__init__ (posix_host "/" three_a_two_b)
       "/data" "img_*_a.png" "img_*_b.png"
     = inl (ValueError msg_equal_number)
  /\ Multiprocesser.__init__ (posix_host "/" three_a_two_b)
       "/data" "img_*_c.png" "img_*_d.png"
     = inl (ValueError msg_no_images).
Proof.
  split.
  - intros h data_dir pattern_a pattern_b e H.
    destruct (init_cases h data_dir pattern_a pattern_b)
      as [[_ E]|[(_ & _ & E)|(_ & _ & E)]];
      rewrite E in H; try discriminate; injection H as <-; simpl; auto.
  - split; [reflexivity|]. split; [vm_compute; discriminate|].
    split; reflexivity.
Qed.

(** C10: [__init__] does not compare the two sets of files. When a path
    matches both patterns and the two numbers of matches are equal (and
    not zero), construction succeeds, the path is in both [files_a] and
    [files_b], and the tasks pair the two lists position by position. *)
Theorem C10_no_disjointness_check h data_dir pattern_a pattern_b p :
  In p (glob_glob h (os_path_join h (os_path_abspath h data_dir) pattern_a)) ->
  In p (glob_glob h (os_path_join h (os_path_abspath h data_dir) pattern_b)) ->
  length (glob_glob h (os_path_join h (os_path_abspath h data_dir) pattern_a))
  = length (glob_glob h (os_path_join h (os_path_abspath h data_dir) pattern_b)) ->
  0 < length (glob_glob h (os_path_join h (os_path_abspath h data_dir) pattern_a)) ->
  exists self,
    Multiprocesser.__init__ h data_dir pattern_a pattern_b = inr self
    /\ In p (Multiprocesser.files_a self)
    /\ In p (Multiprocesser.files_b self)
    /\ (forall i a b,
          Multiprocesser.files_a self !! i = Some a ->
          Multiprocesser.files_b self !! i = Some b ->
          Multiprocesser.image_pairs self !! i = Some (a, b, i)).
Proof.
  intros Ha Hb Hlen Hpos.
  destruct (init_cases h data_dir pattern_a pattern_b)
    as [[Hab _]|[(_ & H0 & _)|(Hab & H0 & E)]];
    rewrite ?sorted_length in *; try lia.
  eexists. split; [exact E|]. simpl.
  split; [|split].
  - apply list_elem_of_In. rewrite sorted_Permutation. now apply list_elem_of_In.
  - apply list_elem_of_In. rewrite sorted_Permutation. now apply list_elem_of_In.
  - intros i a b Ea Eb. unfold Multiprocesser.image_pairs, xrange. simpl.
    apply (zip_seq_lookup _ _ 0); auto.
    apply lookup_lt_Some in Ea. now rewrite sorted_length in Ea.
Qed.

(** The file ab.png matches both patterns. *)
Lemma C10_no_disjointness_check_witness :
  glob_glob (posix_host "/" overlapping_dir) "/data/*a*.png"
    = ["/data/ab.png"; "/data/a.png"]
  /\ glob_glob (posix_host "/" overlapping_dir) "/data/*b*.png"
    = ["/data/b.png"; "/data/ab.png"]
  /\ exists self,
       Multiprocesser.__init__ (posix_host "/" overlapping_dir)
         "/data" "*a*.png" "*b*.png" = inr self
       /\ In "/data/ab.png" (Multiprocesser.files_a self)
       /\ In "/data/ab.png" (Multiprocesser.files_b self).
Proof.
  split; [reflexivity|]. split; [reflexivity|].
  destruct (C10_no_disjointness_check (posix_host "/" overlapping_dir)
              "/data" "*a*.png" "*b*.png" "/data/ab.png")
    as (self & E & Ha & Hb & _).
  - vm_compute. auto.
  - vm_compute. auto.
  - reflexivity.
  - vm_compute. lia.
  - exists self. auto.
Defined.

(** ** The sequential loop *)

(** The task at position [i] carries the number [i]. *)
Lemma image_pairs_index self i a b j :
  Multiprocesser.image_pairs self !! i = Some (a, b, j) -> j = i.
Proof.
  unfold Multiprocesser.image_pairs, xrange.
  generalize (Multiprocesser.files_a self) (Multiprocesser.files_b self)
             (Multiprocesser.n_files self).
  assert (G : forall (la lb : list string) n k i,
             zip la lb (seq k n) !! i = Some (a, b, j) -> j = k + i).
  { induction la as [|x la IH]; intros [|y lb] [|n] k [|i']; simpl;
      try discriminate.
    - intros [= _ _ <-]. lia.
    - intros H. apply IH in H. lia. }
  intros la lb n H. apply (G la lb n 0 i H).
Qed.

(** The loop over [traced func]: it ends as the loop over [func] does,
    and has called [func] on the first [k] tasks, in order. It returns
    after all of them, or raises what the call on task [k-1] raised. *)
Lemma for_each_traced {W} (func : callable W) l : forall w calls r w' calls',
  for_each (traced func) l (w, calls) = (r, (w', calls')) ->
  for_each func l w = (r, w')
  /\ exists k, calls' = calls ++ take k l
     /\ match r with
        | Return => k = length l
        | Raise e => 0 < k <= length l
                     /\ exists x w0 w1, l !! (k - 1) = Some x
                                        /\ func x w0 = (Raise e, w1)
        end.
Proof.
  induction l as [|x l IH]; simpl; intros w calls r w' calls' H.
  - injection H as <- <- <-. split; [reflexivity|].
    exists 0. simpl. now rewrite app_nil_r.
  - destruct (func x w) as [[|e] w1] eqn:Ex.
    + apply IH in H. destruct H as (E & k & Hc & Hk). split; [exact E|].
      exists (S k). simpl. split.
      * rewrite Hc, <- app_assoc. reflexivity.
      * destruct r as [|e]; [lia|].
        destruct Hk as (Hk & y & w0 & w2 & Ey & Er).
        split; [lia|]. exists y, w0, w2. split; [|exact Er].
        destruct k as [|k]; [lia|]. simpl in *.
        now rewrite Nat.sub_0_r in *.
    + injection H as <- <- <-. split; [reflexivity|].
      exists 1. simpl. rewrite take_0. split; [reflexivity|].
      split; [lia|]. exists x, w, w1. auto.
Qed.

(** A function that raises on none of the tasks lets the loop return. *)
Lemma for_each_return {W} (func : callable W) l :
  (forall x w, In x l -> fst (func x w) = Return) ->
  forall w, fst (for_each func l w) = Return.
Proof.
  induction l as [|x l IH]; simpl; intros Hok w; [reflexivity|].
  specialize (Hok x w (or_introl eq_refl)) as Hx.
  destruct (func x w) as [[|e] w1]; simpl in Hx; [|discriminate].
  apply IH. intros y w0 Hy. apply Hok. now right.
Qed.

(** With [n_cpus <= 1], [run] is the loop. *)
Lemma run_sequential {W} self (func : callable W) n_cpus w out :
  (n_cpus <= 1)%Z ->
  Multiprocesser.run self func n_cpus w out
  <-> out = for_each func (Multiprocesser.image_pairs self) w.
Proof.
  intros Hn. unfold Multiprocesser.run.
  destruct (Z.gtb_spec n_cpus 1); [lia|]. reflexivity.
Qed.




(** C8: for every [n_cpus <= 1], zero and negative numbers included,
    [run] is the loop over the tasks in the calling context, as with
    [n_cpus = 1]; nothing is raised because of [n_cpus]: what [run]
    raises, a call of the function raised; and when no call raises, the
    function has been called on every task, in ascending order, and
    [run] returns. *)
Theorem C8_worker_count_at_most_one {W} h data_dir pattern_a pattern_b self
    (func : callable W) (n_cpus : Z) (w : W) :
  Multiprocesser.__init__ h data_dir pattern_a pattern_b = inr self ->
  (n_cpus <= 1)%Z ->
  (forall out, Multiprocesser.run self func n_cpus w out
               <-> out = for_each func (Multiprocesser.image_pairs self) w)
  /\ (forall out, Multiprocesser.run self func n_cpus w out
                  <-> Multiprocesser.run self func 1 w out)
  /\ (forall e w', Multiprocesser.run self func n_cpus w (Raise e, w') ->
        exists x w0 w1, In x (Multiprocesser.image_pairs self)
                        /\ func x w0 = (Raise e, w1))
  /\ ((forall x w0, In x (Multiprocesser.image_pairs self) ->
                    fst (func x w0) = Return) ->
      exists w',
        forall out, Multiprocesser.run self (traced func) n_cpus (w, []) out
                    <-> out = (Return, (w', Multiprocesser.image_pairs self))).
Proof.
  intros _ Hn.
  split; [|split; [|split]].
  - intros out. now apply run_sequential.
  - intros out. rewrite !run_sequential by lia. reflexivity.
  - intros e w' H.
    destruct (for_each (traced func) (Multiprocesser.image_pairs self) (w, []))
      as [r [w1 calls]] eqn:E.
    destruct (for_each_traced _ _ _ _ _ _ _ E) as (E' & k & _ & Hk).
    apply run_sequential in H; [|exact Hn]. rewrite E' in H.
    injection H as <- <-.
    destruct Hk as (_ & x & w0 & w2 & Hx & Hr).
    exists x, w0, w2. split; [|exact Hr].
    apply list_elem_of_In. eapply list_elem_of_lookup_2. exact Hx.
  - intros Hok.
    destruct (for_each (traced func) (Multiprocesser.image_pairs self) (w, []))
      as [r [w1 calls]] eqn:E.
    destruct (for_each_traced _ _ _ _ _ _ _ E) as (E' & k & Hc & Hk).
    pose proof (for_each_return func _ Hok w) as Hr. rewrite E' in Hr.
    simpl in Hr. subst r. simpl in Hc. rewrite Hk, firstn_all in Hc. subst calls.
    exists w1. intros out. rewrite run_sequential by exact Hn. now rewrite E.
Qed.

(** [n_cpus = -3] on the scenario: both tasks are called, 0 then 1. *)
Lemma C8_worker_count_at_most_one_witness :
  exists self,
    Multiprocesser.__init__ scenario_host "/data" "img_*_a.png" "img_*_b.png"
      = inr self
    /\ forall out,
         Multiprocesser.run self write_index (-3) [] out <-> out = (Return, [0; 1]).
Proof.
  eexists. split; [vm_compute; reflexivity|].
  intros out.
  destruct (C8_worker_count_at_most_one scenario_host
              "/data" "img_*_a.png" "img_*_b.png" _ write_index (-3)%Z []
              eq_refl ltac:(lia)) as (H & _).
  rewrite H. change (out = (Return, [0; 1]) <-> out = (Return, [0; 1])).
  reflexivity.
Defined.

(** ** The batches of [Pool.map] *)

Lemma chunksize_pos len processes : 0 < len -> 0 < Pool.chunksize len processes.
Proof.
  intros Hlen. unfold Pool.chunksize.
  destruct (Nat.eqb_spec len 0) as [|_]; [lia|].
  destruct (Nat.eqb_spec (len mod (processes * 4)) 0) as [Hm|Hm]; simpl; [|lia].
  destruct (Nat.eq_dec (processes * 4) 0) as [Hz|Hz].
  - rewrite Hz in Hm. simpl in Hm. lia.
  - pose proof (Nat.div_mod len (processes * 4) Hz) as Hd.
    destruct (len / (processes * 4)); lia.
Qed.

(** The batches are the iterable cut in pieces: nothing lost, nothing
    twice, the order kept. *)
Lemma concat_get_tasks {A} size : 0 < size -> forall n (it : list A),
  length it <= n -> concat (Pool.get_tasks n size it) = it.
Proof.
  intros Hsize. induction n as [|n IH]; intros it Hn; simpl.
  - destruct it; simpl in *; [reflexivity|lia].
  - destruct (take size it) as [|x xs] eqn:E.
    + destruct it; [reflexivity|]. destruct size; [lia|discriminate].
    + change (concat ((x :: xs) :: Pool.get_tasks n size (drop size it)))
        with ((x :: xs) ++ concat (Pool.get_tasks n size (drop size it))).
      rewrite IH.
      * rewrite <- E. apply take_drop.
      * rewrite length_drop. destruct it; simpl in *; [destruct size; discriminate|lia].
Qed.

Lemma length_get_tasks {A} size : forall n (it : list A),
  length it <= n ->
  length (Pool.get_tasks n size it) = Pool.number_of_batches (length it) size.
Proof.
  unfold Pool.number_of_batches.
  destruct (Nat.eqb_spec size 0) as [->|Hsize].
  { intros [|n] it _; reflexivity. }
  induction n as [|n IH]; intros it Hn; simpl.
  - destruct it; simpl in *; [|lia].
    rewrite Nat.Div0.div_0_l, Nat.Div0.mod_0_l. reflexivity.
  - destruct (take size it) as [|x xs] eqn:E.
    + destruct it; [|destruct size; [lia|discriminate]]. simpl.
      rewrite Nat.Div0.div_0_l, Nat.Div0.mod_0_l. reflexivity.
    + simpl. rewrite IH, length_drop
        by (rewrite length_drop; destruct it; simpl in *;
            [destruct size; discriminate|lia]).
      assert (Hpos : 0 < length it)
        by (destruct it; simpl; [destruct size; discriminate|lia]).
      destruct (Nat.le_gt_cases size (length it)) as [Hle|Hgt].
      * replace (length it) with ((length it - size) + 1 * size) at 3 4 by lia.
        rewrite Nat.div_add, Nat.Div0.mod_add by lia. lia.
      * replace (length it - size) with 0 by lia.
        rewrite Nat.Div0.div_0_l, Nat.Div0.mod_0_l.
        rewrite (Nat.div_small (length it)), (Nat.mod_small (length it)) by lia.
        destruct (Nat.eqb_spec (length it) 0); simpl; lia.
Qed.

Lemma concat_Permutation {A} (l1 l2 : list (list A)) :
  l1 ≡ₚ l2 -> concat l1 ≡ₚ concat l2.
Proof.
  induction 1 as [|x l1 l2 _ IH|x y l|l1 l2 l3 _ IH1 _ IH2]; simpl.
  - reflexivity.
  - now rewrite IH.
  - rewrite !app_assoc. f_equiv. apply Permutation_app_comm.
  - now rewrite IH1.
Qed.

(** ** The worker processes *)

Lemma busy_unfold y workers : busy (y :: workers) = option_list y ++ busy workers.
Proof. destruct y; reflexivity. Qed.

(** Changing what worker [i] holds. *)
Lemma busy_insert workers : forall i old new,
  workers !! i = Some old ->
  exists others,
    busy workers ≡ₚ option_list old ++ others
    /\ busy (<[i := new]> workers) ≡ₚ option_list new ++ others.
Proof.
  induction workers as [|y workers IH]; intros [|i] old new H; simpl in *;
    try discriminate.
  - injection H as ->. exists (busy workers). rewrite !busy_unfold. auto.
  - destruct (IH i old new H) as (others & H1 & H2).
    exists (option_list y ++ others). rewrite !busy_unfold, H1, H2.
    split; rewrite !app_assoc; f_equiv; apply Permutation_app_comm.
Qed.

Lemma busy_nil workers i : busy workers = [] -> i < length workers ->
  workers !! i = Some None.
Proof.
  unfold busy. revert i.
  induction workers as [|[c|] workers IH]; intros i H Hi; simpl in *;
    try discriminate; try lia.
  destruct i as [|i]; [reflexivity|]. simpl. apply IH; [exact H|lia].
Qed.

Lemma busy_cons workers c others : busy workers ≡ₚ c :: others ->
  exists i, workers !! i = Some (Some c).
Proof.
  intros H.
  assert (Hin : c ∈ busy workers) by (rewrite H; left).
  apply list_elem_of_omap in Hin. destruct Hin as ([c'|] & Hin & E);
    simpl in E; [|discriminate].
  injection E as ->. now apply list_elem_of_lookup_1 in Hin.
Qed.

Lemma busy_replicate n : busy (replicate n None) = [].
Proof. induction n as [|n IH]; [reflexivity|]. simpl. now rewrite busy_unfold, IH. Qed.

(** ** The pool: counting and termination *)

Section PoolSteps.
Context {W : Type} (func : callable W).

Lemma step_measure s s' : Pool.step func s s' -> measure s' < measure s.
Proof.
  unfold measure.
  destruct 1 as [s i batch tasks _ Hw Hq|s i x rest w' _ Hw _
                |s i x rest e w' _ Hw _|s i _ Hw|s results _ Hq|s e results _ Hq];
    simpl.
  - destruct (busy_insert _ _ _ (Some batch) Hw) as (others & Hb & Hb').
    rewrite Hb, Hb', Hq. simpl. lia.
  - destruct (busy_insert _ _ _ (Some rest) Hw) as (others & Hb & Hb').
    rewrite Hb, Hb'. simpl. lia.
  - destruct (busy_insert _ _ _ None Hw) as (others & Hb & Hb').
    rewrite Hb, Hb', length_app. simpl. lia.
  - destruct (busy_insert _ _ _ None Hw) as (others & Hb & Hb').
    rewrite Hb, Hb', length_app. simpl. lia.
  - rewrite Hq. simpl. lia.
  - rewrite Hq. simpl. lia.
Qed.

Lemma step_counted s s' : Pool.step func s s' -> counted s -> counted s'.
Proof.
  unfold counted.
  destruct 1 as [s i batch tasks Hr Hw Hq|s i x rest w' Hr Hw _
                |s i x rest e w' Hr Hw _|s i Hr Hw|s results Hr Hq|s e results Hr Hq];
    rewrite Hr; simpl; intros [Hpos Hn].
  - destruct (busy_insert _ _ _ (Some batch) Hw) as (others & Hb & Hb').
    rewrite Hb, Hq in Hn. rewrite Hb'. simpl in *. lia.
  - destruct (busy_insert _ _ _ (Some rest) Hw) as (others & Hb & Hb').
    rewrite Hb in Hn. rewrite Hb'. simpl in *. lia.
  - destruct (busy_insert _ _ _ None Hw) as (others & Hb & Hb').
    rewrite Hb in Hn. rewrite Hb', !length_app. simpl in *. lia.
  - destruct (busy_insert _ _ _ None Hw) as (others & Hb & Hb').
    rewrite Hb in Hn. rewrite Hb', !length_app. simpl in *. lia.
  - rewrite Hq in Hn. simpl in Hn.
    destruct (Nat.eqb_spec (Pool.number_left s - 1) 0) as [H0|H0]; [|lia].
    assert (Hq0 : length (Pool.taskqueue s) = 0) by lia.
    assert (Hb0 : length (busy (Pool.workers s)) = 0) by lia.
    assert (Hr0 : length results = 0) by lia.
    apply nil_length_inv in Hq0, Hb0, Hr0. auto.
  - exact I.
Qed.

Lemma step_workers s s' : Pool.step func s s' ->
  length (Pool.workers s') = length (Pool.workers s).
Proof. destruct 1; simpl; now rewrite ?length_insert. Qed.

Lemma start_counted processes iterable (w : W) :
  counted (Pool.start processes iterable w).
Proof.
  unfold counted, Pool.start. simpl.
  destruct (Nat.eqb_spec (Pool.chunksize (length iterable) processes) 0)
    as [Hz|Hz].
  - rewrite busy_replicate, Hz. repeat split.
    destruct iterable; reflexivity.
  - rewrite busy_replicate, <- (length_get_tasks _ (length iterable)) by lia.
    simpl.
    split; [|lia].
    assert (Hc : concat (Pool.get_tasks (length iterable)
                           (Pool.chunksize (length iterable) processes) iterable)
                 = iterable) by (apply concat_get_tasks; lia).
    destruct (Pool.get_tasks _ _ iterable); simpl; [|lia].
    simpl in Hc. subst iterable. simpl in Hz. unfold Pool.chunksize in Hz.
    simpl in Hz. lia.
Qed.

(** What holds of every state the pool reaches. *)
Lemma reach_counted processes iterable w s :
  rtc (Pool.step func) (Pool.start processes iterable w) s ->
  counted s /\ length (Pool.workers s) = processes.
Proof.
  revert s.
  apply (@rtc_ind_r _ (Pool.step func)
           (fun s => counted s /\ length (Pool.workers s) = processes)).
  - split; [apply start_counted|]. simpl. apply length_replicate.
  - intros s1 s2 _ Hs [Hc Hl]. split; [eauto using step_counted|].
    now rewrite (step_workers _ _ Hs).
Qed.

(** While the result is not ready, some process can move. *)
Lemma progress s :
  counted s -> 0 < length (Pool.workers s) -> Pool.ready s = None ->
  exists s', Pool.step func s s'.
Proof.
  unfold counted. intros Hc Hw Hr. rewrite Hr in Hc. destruct Hc as [Hpos Hn].
  destruct (Pool.outqueue s) as [|[|e] results] eqn:Eo.
  - destruct (busy (Pool.workers s)) as [|c others] eqn:Eb.
    + destruct (Pool.taskqueue s) as [|batch tasks] eqn:Eq; [simpl in *; lia|].
      eexists. eapply (Pool.step_get func s 0); eauto using busy_nil.
    + destruct (busy_cons (Pool.workers s) c others) as [i Hi]; [now rewrite Eb|].
      destruct c as [|x rest].
      * eexists. eapply Pool.step_put; eauto.
      * destruct (func x (Pool.world s)) as [[|e] w'] eqn:Ef.
        -- eexists. eapply Pool.step_call_return; eauto.
        -- eexists. eapply Pool.step_call_raise; eauto.
  - eexists. eapply Pool.step_handle_success; eauto.
  - eexists. eapply Pool.step_handle_failure; eauto.
Qed.

(** Every sequence of steps is bounded. *)
Lemma nsteps_measure k s s' :
  nsteps (Pool.step func) k s s' -> k + measure s' <= measure s.
Proof.
  induction 1 as [|k s1 s2 s3 Hs _ IH]; [lia|].
  apply step_measure in Hs. lia.
Qed.

(** The result becomes ready. *)
Lemma reach_ready processes iterable w : 0 < processes ->
  forall m s, measure s <= m ->
    rtc (Pool.step func) (Pool.start processes iterable w) s ->
    exists s', rtc (Pool.step func) s s' /\ is_Some (Pool.ready s').
Proof.
  intros Hp. induction m as [|m IH]; intros s Hm Hs;
    destruct (Pool.ready s) as [r|] eqn:Er;
    try (exists s; split; [apply rtc_refl|rewrite Er; eauto]; fail);
    destruct (reach_counted _ _ _ _ Hs) as [Hc Hl];
    destruct (progress s Hc ltac:(lia) Er) as [s1 H1];
    pose proof (step_measure _ _ H1) as Hlt; [lia|].
  destruct (IH s1 ltac:(lia) (rtc_r _ _ _ Hs H1)) as (s' & Hs' & Hr').
  exists s'. split; [eapply rtc_l; eauto|exact Hr'].
Qed.

End PoolSteps.

(** ** The pool: which calls are made *)

#[global] Instance concat_Permutation_proper {A} :
  Proper ((≡ₚ) ==> (≡ₚ)) (@concat A).
Proof. intros l1 l2. apply concat_Permutation. Qed.

Lemma traced_call {W} (func : callable W) x (w : W * list image_pair) r w' :
  traced func x w = (r, w') ->
  exists w1, func x (fst w) = (r, w1) /\ w' = (w1, snd w ++ [x]).
Proof.
  destruct w as [w0 c]. unfold traced. simpl.
  destruct (func x w0) as [r1 w1]. intros [= -> <-]. eauto.
Qed.

Lemma perm_get {A} (c b t o : list A) : c ++ t ++ b ++ o ≡ₚ c ++ (b ++ t) ++ o.
Proof. f_equiv. rewrite app_assoc. f_equiv. apply Permutation_app_comm. Qed.

Lemma perm_call {A} (c q rest o : list A) x :
  (c ++ [x]) ++ q ++ rest ++ o ≡ₚ c ++ q ++ (x :: rest) ++ o.
Proof. rewrite <- app_assoc. f_equiv. simpl. apply Permutation_middle. Qed.

Section PoolCalls.
Context {W : Type} (func : callable W) (iterable : list image_pair).

Lemma step_traced_inv s s' :
  Pool.step (traced func) s s' ->
  traced_inv func iterable s -> traced_inv func iterable s'.
Proof.
  unfold traced_inv, calls, pending, no_failure.
  destruct 1 as [s i batch tasks Hr Hw Hq|s i x rest w' Hr Hw Hf
                |s i x rest e w' Hr Hw Hf|s i Hr Hw|s results Hr Hq|s e results Hr Hq];
    simpl; intros (HA & HB & HC).
  - destruct (busy_insert _ _ _ (Some batch) Hw) as (others & Hb & Hb').
    rewrite Hb' in *. rewrite Hb, Hq in HA, HB. simpl in *.
    rewrite perm_get. split; [exact HA|]. split.
    + intros [Ho _]. apply HB. split; [exact Ho|]. rewrite Hr. discriminate.
    + intros e [Hin|[=]]. apply HC. now left.
  - destruct (busy_insert _ _ _ (Some rest) Hw) as (others & Hb & Hb').
    destruct (traced_call _ _ _ _ _ Hf) as (w1 & Hf1 & ->).
    rewrite Hb' in *. rewrite Hb in HA, HB. simpl in *.
    rewrite perm_call. split; [exact HA|]. split.
    + intros [Ho _]. destruct HB as [HB1 HB2].
      { split; [exact Ho|]. rewrite Hr. discriminate. }
      split; [exact HB1|]. apply Forall_app. split; [exact HB2|].
      constructor; [|constructor]. eexists _, _. exact Hf1.
    + intros e [Hin|[=]]. destruct (HC e (or_introl Hin)) as (y & Hy & Hy').
      exists y. split; [|exact Hy']. apply in_or_app. now left.
  - destruct (busy_insert _ _ _ None Hw) as (others & Hb & Hb').
    destruct (traced_call _ _ _ _ _ Hf) as (w1 & Hf1 & ->).
    rewrite Hb' in *. rewrite Hb in HA, HB. simpl in *. split; [|split].
    + etrans; [|exact HA]. rewrite <- app_assoc. apply submseteq_app; [done|].
      simpl. rewrite <- (Permutation_middle (concat (Pool.taskqueue s))).
      apply submseteq_skip. apply submseteq_app; [done|].
      apply submseteq_inserts_l. done.
    + intros [Ho _]. apply Forall_app in Ho. destruct Ho as [_ Ho].
      apply Forall_cons in Ho. destruct Ho as [[=] _].
    + intros e' [Hin|[=]]. apply in_app_or in Hin. destruct Hin as [Hin|[[= <-]|[]]].
      * destruct (HC e' (or_introl Hin)) as (y & Hy & Hy').
        exists y. split; [|exact Hy']. apply in_or_app. now left.
      * exists x. split; [apply in_or_app; right; now left|].
        eexists _, _. exact Hf1.
  - destruct (busy_insert _ _ _ None Hw) as (others & Hb & Hb').
    rewrite Hb' in *. rewrite Hb in HA, HB. simpl in *.
    split; [exact HA|]. split.
    + intros [Ho _]. apply Forall_app in Ho. destruct Ho as [Ho _].
      apply HB. split; [exact Ho|]. rewrite Hr. discriminate.
    + intros e [Hin|[=]]. apply in_app_or in Hin. destruct Hin as [Hin|[[=]|[]]].
      apply HC. now left.
  - rewrite Hq in *. split; [exact HA|]. split.
    + intros [Ho _]. apply HB. split; [now constructor|]. rewrite Hr. discriminate.
    + intros e [Hin|Hr'].
      * apply HC. left. now right.
      * destruct (Pool.number_left s - 1 =? 0)%nat; discriminate.
  - rewrite Hq in *. split; [exact HA|]. split.
    + intros [_ Hne]. now destruct (Hne e).
    + intros e' [Hin|[= <-]]; apply HC; left; [now right|now left].
Qed.

Lemma start_traced_inv processes w :
  traced_inv func iterable (Pool.start processes iterable (w, [])).
Proof.
  unfold traced_inv, calls, pending, Pool.start. simpl.
  rewrite busy_replicate. simpl. rewrite app_nil_r.
  assert (E : concat (Pool.get_tasks (length iterable)
                        (Pool.chunksize (length iterable) processes) iterable)
              = iterable).
  { destruct iterable as [|x l] eqn:El; [reflexivity|]. rewrite <- El.
    apply concat_get_tasks; [|lia]. apply chunksize_pos. subst. simpl. lia. }
  rewrite E. split; [done|]. split; [intros _; split; [done|constructor]|].
  intros e [[]|H]. destruct (_ =? _)%nat; discriminate.
Qed.

Lemma reach_traced_inv processes w s :
  rtc (Pool.step (traced func)) (Pool.start processes iterable (w, [])) s ->
  traced_inv func iterable s.
Proof.
  revert s. apply (@rtc_ind_r _ (Pool.step (traced func)) (traced_inv func iterable)).
  - apply start_traced_inv.
  - intros s1 s2 _ Hs H1. eauto using step_traced_inv.
Qed.

End PoolCalls.

(** ** The parallel path *)

Lemma image_pairs_NoDup self : NoDup (Multiprocesser.image_pairs self).
Proof.
  apply NoDup_alt. intros i j [[a b] k] Hi Hj.
  apply image_pairs_index in Hi, Hj. congruence.
Qed.

(** The task queue holds the iterable, in its order. *)
Lemma start_taskqueue {W} processes iterable (w : W) :
  concat (Pool.taskqueue (Pool.start processes iterable w)) = iterable.
Proof.
  simpl. destruct iterable as [|x l] eqn:El; [reflexivity|]. rewrite <- El.
  apply concat_get_tasks; [|lia]. apply chunksize_pos. subst. simpl. lia.
Qed.

(** With [n_cpus > 1], [run] is [Pool.map]. *)
Lemma run_parallel {W} self (func : callable W) n_cpus w out :
  (1 < n_cpus)%Z ->
  Multiprocesser.run self func n_cpus w out
  <-> Pool.map func (Z.to_nat n_cpus) (Multiprocesser.image_pairs self) w out.
Proof.
  intros Hn. unfold Multiprocesser.run.
  destruct (Z.gtb_spec n_cpus 1); [reflexivity|lia].
Qed.

(** How [Pool.map] over [traced func] can end. *)
Lemma map_traced {W} (func : callable W) processes iterable w out :
  Pool.map (traced func) processes iterable (w, []) out ->
  snd (snd out) ⊆+ iterable
  /\ match fst out with
     | Return =>
         snd (snd out) ≡ₚ iterable
         /\ Forall (fun x => exists w0 w1, func x w0 = (Return, w1)) (snd (snd out))
     | Raise e =>
         exists x w0 w1, In x (snd (snd out)) /\ func x w0 = (Raise e, w1)
     end.
Proof.
  intros (s & Hs & Hr & Hw).
  destruct (reach_traced_inv func iterable _ _ _ Hs) as (HA & HB & HC).
  destruct (reach_counted _ _ _ _ _ Hs) as [Hc _].
  unfold calls, pending, no_failure, counted in *. rewrite Hr in Hc. rewrite <- Hw.
  split.
  - etrans; [|exact HA]. apply submseteq_inserts_r. done.
  - destruct (fst out) as [|e].
    + destruct Hc as (Hq & Hb & Ho). rewrite Hq, Hb, Ho in HB. simpl in HB.
      rewrite app_nil_r in HB. apply HB. split; [constructor|].
      rewrite Hr. discriminate.
    + destruct (HC e (or_intror Hr)) as (x & Hx & w0 & w1 & Hf). eauto.
Qed.

Lemma five_pairs_init :
  Multiprocesser.__init__ (posix_host "/" five_pairs_dir)
    "/data" "img_*_a.png" "img_*_b.png" = inr five_pairs.
Proof. vm_compute. reflexivity. Qed.

(** Two workers take the first two batches; the call on task 1 raises
    before the call on task 0 is made; the result handler sees the
    failure, and [run] raises. *)
Lemma five_pairs_run :
  Multiprocesser.run five_pairs (traced fails_on_1) 3 (tt, [])
    (Raise boom, (tt, [("/data/img_001_a.png", "/data/img_001_b.png", 1)])).
Proof.
  apply run_parallel; [lia|]. unfold Pool.map.
  eexists. split; [|split].
  - eapply rtc_l. { eapply (Pool.step_get _ _ 0); reflexivity. } simpl.
    eapply rtc_l. { eapply (Pool.step_get _ _ 1); reflexivity. } simpl.
    eapply rtc_l. { eapply (Pool.step_call_raise _ _ 1); reflexivity. } simpl.
    eapply rtc_l. { eapply Pool.step_handle_failure; reflexivity. } simpl.
    apply rtc_refl.
  - reflexivity.
  - reflexivity.
Qed.






(** * The other functions of the module *)

(** ** [negative] and [imsave] *)

Lemma int32_small z : in_int32 z -> int32 z = z.
Proof. unfold in_int32, int32. intros H. Z.to_euclidean_division_equations. lia. Qed.

Lemma int32_range z : in_int32 (int32 z).
Proof. unfold in_int32, int32. Z.to_euclidean_division_equations. lia. Qed.

Lemma negative_pixel_involutive p :
  in_int32 p -> int32 (255 - int32 (255 - p)) = p.
Proof. unfold in_int32, int32. intros H. Z.to_euclidean_division_equations. lia. Qed.

(** The pixel of the negative is a grey level exactly when the pixel
    is. *)
Lemma negative_pixel_grey p :
  in_int32 p -> ((0 <= int32 (255 - p) <= 255) <-> (0 <= p <= 255))%Z.
Proof. unfold in_int32, int32. intros H. Z.to_euclidean_division_equations. lia. Qed.

Lemma fold_max_spec ps : forall p,
  (forall q, In q (p :: ps) -> (q <= fold_left Z.max ps p)%Z)
  /\ In (fold_left Z.max ps p) (p :: ps).
Proof.
  induction ps as [|a ps IH]; intros p; simpl.
  - split; [intros q [<-|[]]; lia|auto].
  - destruct (IH (Z.max p a)) as [H1 H2]. split.
    + intros q [<-|[<-|Hq]].
      * specialize (H1 (Z.max p a) (or_introl eq_refl)). lia.
      * specialize (H1 (Z.max p a) (or_introl eq_refl)). lia.
      * apply H1. now right.
    + destruct H2 as [H2|H2]; [|auto].
      rewrite <- H2. destruct (Z.max_spec p a) as [[_ ->]|[_ ->]]; auto.
Qed.

Lemma fold_min_spec ps : forall p,
  (forall q, In q (p :: ps) -> (fold_left Z.min ps p <= q)%Z)
  /\ In (fold_left Z.min ps p) (p :: ps).
Proof.
  induction ps as [|a ps IH]; intros p; simpl.
  - split; [intros q [<-|[]]; lia|auto].
  - destruct (IH (Z.min p a)) as [H1 H2]. split.
    + intros q [<-|[<-|Hq]].
      * specialize (H1 (Z.min p a) (or_introl eq_refl)). lia.
      * specialize (H1 (Z.min p a) (or_introl eq_refl)). lia.
      * apply H1. now right.
    + destruct H2 as [H2|H2]; [|auto].
      rewrite <- H2. destruct (Z.min_spec p a) as [[_ ->]|[_ ->]]; auto.
Qed.

(** What [imsave] does, by the content of the array. *)
Lemma imsave_cases {W} (scipy_misc_imsave : string -> ndarray -> W -> result * W)
    filename arr w :
  (concat arr = []
   /\ imsave scipy_misc_imsave filename arr w
      = (Raise (ValueError (msg_zero_size "maximum")), w))
  \/ (concat arr <> [] /\ Forall (fun p => (0 <= p <= 255)%Z) (concat arr)
      /\ imsave scipy_misc_imsave filename arr w = scipy_misc_imsave filename arr w)
  \/ (concat arr <> [] /\ ~ Forall (fun p => (0 <= p <= 255)%Z) (concat arr)
      /\ imsave scipy_misc_imsave filename arr w
         = (Raise (ValueError msg_grey_levels), w)).
Proof.
  unfold imsave, np_amax, np_amin.
  destruct (concat arr) as [|p ps] eqn:E; [left; auto|right].
  destruct (fold_max_spec ps p) as [Hmax Hmaxin].
  destruct (fold_min_spec ps p) as [Hmin Hminin].
  destruct (Z.ltb_spec (fold_left Z.max ps p) 256) as [H1|H1].
  - destruct (Z.geb_spec (fold_left Z.min ps p) 0) as [H2|H2].
    + left. split; [discriminate|]. split; [|reflexivity].
      apply Forall_forall. intros q Hq. apply list_elem_of_In in Hq.
      specialize (Hmax q Hq). specialize (Hmin q Hq). lia.
    + right. split; [discriminate|]. split; [|reflexivity].
      intros HF. rewrite Forall_forall in HF.
      apply list_elem_of_In in Hminin. specialize (HF _ Hminin). simpl in HF. lia.
  - right. split; [discriminate|]. split; [|reflexivity].
    intros HF. rewrite Forall_forall in HF.
    apply list_elem_of_In in Hmaxin. specialize (HF _ Hmaxin). simpl in HF. lia.
Qed.

(** X1: [negative] applied twice gives the image back, for every image of
    [np.int32] values, and the negative has the shape of the image. *)
Theorem X1_negative_involutive (image : ndarray) :
  Forall (Forall in_int32) image ->
  negative (negative image) = image
  /\ List.map (@length Z) (negative image) = List.map (@length Z) image
  /\ Forall (Forall in_int32) (negative image).
Proof.
  intros H. unfold negative. split; [|split].
  - induction H as [|row image Hrow _ IH]; simpl; [reflexivity|].
    rewrite IH. f_equal.
    induction Hrow as [|p row Hp _ IHrow]; simpl; [reflexivity|].
    now rewrite IHrow, negative_pixel_involutive.
  - rewrite List.map_map. apply List.map_ext. intros row. apply length_map.
  - apply Forall_forall. intros row Hrow. apply list_elem_of_In in Hrow.
    apply in_map_iff in Hrow. destruct Hrow as (row0 & <- & _).
    apply Forall_forall. intros p Hp. apply list_elem_of_In in Hp.
    apply in_map_iff in Hp. destruct Hp as (p0 & <- & _). apply int32_range.
Qed.

Lemma X1_negative_involutive_witness :
  negative [[0; 100]; [255; 70000]]%Z = [[255; 155]; [0; -69745]]%Z
  /\ negative (negative [[0; 100]; [255; 70000]]%Z) = [[0; 100]; [255; 70000]]%Z.
Proof.
  split; [reflexivity|].
  apply (X1_negative_involutive [[0; 100]; [255; 70000]]%Z).
  repeat constructor; unfold in_int32; lia.
Defined.



Lemma concat_negative (image : ndarray) :
  concat (negative image) = List.map (fun p => int32 (255 - p)) (concat image).
Proof.
  unfold negative. induction image as [|row image IH]; simpl; [reflexivity|].
  now rewrite IH, List.map_app.
Qed.

Lemma concat_in_int32 (image : ndarray) :
  Forall (Forall in_int32) image -> Forall in_int32 (concat image).
Proof.
  induction 1 as [|row image Hrow _ IH]; simpl; [constructor|].
  apply Forall_app. auto.
Qed.

(** The negative is an image of grey levels exactly when the image is. *)
Lemma negative_grey_iff (image : ndarray) :
  Forall (Forall in_int32) image ->
  Forall (fun p => (0 <= p <= 255)%Z) (concat (negative image))
  <-> Forall (fun p => (0 <= p <= 255)%Z) (concat image).
Proof.
  intros H. apply concat_in_int32 in H. rewrite concat_negative.
  induction H as [|p l Hp _ IH]; simpl; [split; constructor|].
  rewrite !Forall_cons, IH, (negative_pixel_grey p Hp). reflexivity.
Qed.

Lemma negative_not_empty (image : ndarray) :
  concat image <> [] -> concat (negative image) <> [].
Proof.
  rewrite concat_negative. destruct (concat image); [contradiction|discriminate].
Qed.

(** X3: the negative of an image can be saved exactly when the image
    can: for an [np.int32] image with an element, [imsave] of
    [negative(image)] reaches [scipy.misc.imsave] when all the pixels
    are in 0..255, and raises the ValueError about grey levels when one
    pixel is not (an image of 16-bit values, say). *)
Theorem X3_imsave_negative {W}
    (scipy_misc_imsave : string -> ndarray -> W -> result * W)
    (filename : string) (image : ndarray) (w : W) :
  Forall (Forall in_int32) image ->
  concat image <> [] ->
  (Forall (fun p => (0 <= p <= 255)%Z) (concat image) ->
   imsave scipy_misc_imsave filename (negative image) w
   = scipy_misc_imsave filename (negative image) w)
  /\ (~ Forall (fun p => (0 <= p <= 255)%Z) (concat image) ->
      imsave scipy_misc_imsave filename (negative image) w
      = (Raise (ValueError msg_grey_levels), w)).
Proof.
  intros H32 Hne.
  pose proof (negative_not_empty image Hne) as Hne'.
  pose proof (negative_grey_iff image H32) as Hiff.
  destruct (imsave_cases scipy_misc_imsave filename (negative image) w)
    as [[H0 E]|[(H0 & HF & E)|(H0 & HF & E)]]; rewrite E.
  - contradiction.
  - split; [reflexivity|]. intros Hn. apply Hiff in HF. contradiction.
  - split; [|reflexivity]. intros Hy. apply Hiff in Hy. contradiction.
Qed.

Lemma X3_imsave_negative_witness :
  imsave record_write "neg.jpg" (negative [[0; 255]; [300; 3]]%Z) []
  = (Raise (ValueError msg_grey_levels), []).
Proof.
  apply (X3_imsave_negative record_write "neg.jpg" [[0; 255]; [300; 3]]%Z []).
  - repeat constructor; unfold in_int32; lia.
  - discriminate.
  - intros H. apply Forall_cons in H. destruct H as [_ H].
    apply Forall_cons in H. destruct H as [_ H].
    apply Forall_cons in H. destruct H as [H _]. lia.
Defined.

(** ** [save] *)

(** The rows of the transposed stack of five arrays of one length. *)
Lemma transpose_five {A} (a b c d e : list A) i ai bi ci di ei :
  a !! i = Some ai -> b !! i = Some bi -> c !! i = Some ci ->
  d !! i = Some di -> e !! i = Some ei ->
  transpose [a; b; c; d; e] !! i = Some [ai; bi; ci; di; ei].
Proof.
  intros Ha Hb Hc Hd He. unfold transpose.
  rewrite list_lookup_fmap.
  assert (Hi : seq 0 (length a) !! i = Some i).
  { apply lookup_seq. split; [reflexivity|]. now apply lookup_lt_Some in Ha. }
  rewrite Hi. simpl. now rewrite Ha, Hb, Hc, Hd, He.
Qed.

(** X4: when the five arrays have the same number of elements, [save]
    writes one file, with one line per element: line [i] holds the
    [i]-th elements (row by row) of x, y, u, v and the mask, in this
    order, separated by the delimiter and ended by a newline. The shapes
    of the arrays are not compared. *)
Theorem X4_save_lines {A W}
    (write_file : string -> list string -> W -> result * W) (of_bool : bool -> A)
    (x y u v : list (list A)) (mask : list (list bool))
    (filename : string) (fmt : A -> string) (delimiter : string) (w : W) :
  length (ravel y) = length (ravel x) ->
  length (ravel u) = length (ravel x) ->
  length (ravel v) = length (ravel x) ->
  length (ravel mask) = length (ravel x) ->
  exists lines,
    save write_file of_bool x y u v mask filename fmt delimiter w
    = write_file filename lines w
    /\ length lines = length (ravel x)
    /\ forall i xi yi ui vi mi,
         ravel x !! i = Some xi -> ravel y !! i = Some yi ->
         ravel u !! i = Some ui -> ravel v !! i = Some vi ->
         ravel mask !! i = Some mi ->
         lines !! i
         = Some (fmt xi ++ delimiter ++ fmt yi ++ delimiter ++ fmt ui ++ delimiter
                 ++ fmt vi ++ delimiter ++ fmt (of_bool mi) ++ newline)%string.
Proof.
  intros Hy Hu Hv Hm. unfold save.
  assert (E : np_vstack [ravel x; ravel y; ravel u; ravel v;
                         List.map of_bool (ravel mask)]
              = inr [ravel x; ravel y; ravel u; ravel v;
                     List.map of_bool (ravel mask)]).
  { unfold np_vstack. cbn [forallb].
    now rewrite length_map, Hy, Hu, Hv, Hm, Nat.eqb_refl. }
  rewrite E. unfold np_savetxt. eexists. split; [reflexivity|]. split.
  - unfold transpose. now rewrite !length_map, length_seq.
  - intros i xi yi ui vi mi Hxi Hyi Hui Hvi Hmi.
    rewrite list_lookup_fmap.
    rewrite (transpose_five _ _ _ _ _ i xi yi ui vi (of_bool mi)); auto.
    + simpl. apply f_equal.
      assert (Happ : forall s1 s2 s3 : string,
                 ((s1 ++ s2) ++ s3 = s1 ++ s2 ++ s3)%string).
      { intros s1 s2 s3. induction s1 as [|ch s1 IH]; simpl; [reflexivity|].
        now rewrite IH. }
      now rewrite !Happ.
    + now rewrite list_lookup_fmap, Hmi.
Qed.

(** A 2 by 3 array of x beside 3 by 2 arrays of y, u, v and mask. *)
Lemma X4_save_lines_witness :
  exists lines,
    save record_write (fun b : bool => if b then 1%Z else 0%Z)
      [[1; 2; 3]; [4; 5; 6]]%Z [[10; 20]; [30; 40]; [50; 60]]%Z
      [[7; 7]; [7; 7]; [7; 7]]%Z [[8; 8]; [8; 8]; [8; 8]]%Z
      [[false; false]; [true; false]; [false; false]]
      "field_001.txt" fmt_d tab []
    = record_write "field_001.txt" lines []
    /\ length lines = 6
    /\ lines !! 2
       = Some ("3" ++ tab ++ "30" ++ tab ++ "7" ++ tab ++ "8" ++ tab ++ "1"
               ++ newline)%string.
Proof.
  destruct (X4_save_lines record_write (fun b : bool => if b then 1%Z else 0%Z)
              [[1; 2; 3]; [4; 5; 6]]%Z [[10; 20]; [30; 40]; [50; 60]]%Z
              [[7; 7]; [7; 7]; [7; 7]]%Z [[8; 8]; [8; 8]; [8; 8]]%Z
              [[false; false]; [true; false]; [false; false]]
              "field_001.txt" fmt_d tab [] eq_refl eq_refl eq_refl eq_refl)
    as (lines & E & Hlen & Hline).
  exists lines. split; [exact E|]. split; [exact Hlen|].
  apply (Hline 2 3%Z 30%Z 7%Z 8%Z true); reflexivity.
Defined.

(** X5: when one of y, u, v and the mask has not as many elements as x,
    [save] raises the ValueError of [np.vstack] and writes nothing. *)
Theorem X5_save_size_mismatch {A W}
    (write_file : string -> list string -> W -> result * W) (of_bool : bool -> A)
    (x y u v : list (list A)) (mask : list (list bool))
    (filename : string) (fmt : A -> string) (delimiter : string) (w : W) :
  length (ravel y) <> length (ravel x)
  \/ length (ravel u) <> length (ravel x)
  \/ length (ravel v) <> length (ravel x)
  \/ length (ravel mask) <> length (ravel x) ->
  save write_file of_bool x y u v mask filename fmt delimiter w
  = (Raise (ValueError msg_vstack), w).
Proof.
  intros H. unfold save, np_vstack. simpl. rewrite length_map.
  destruct (Nat.eqb_spec (length (ravel y)) (length (ravel x))); simpl; [|reflexivity].
  destruct (Nat.eqb_spec (length (ravel u)) (length (ravel x))); simpl; [|reflexivity].
  destruct (Nat.eqb_spec (length (ravel v)) (length (ravel x))); simpl; [|reflexivity].
  destruct (Nat.eqb_spec (length (ravel mask)) (length (ravel x))); simpl;
    [|reflexivity].
  intuition.
Qed.

Lemma X5_save_size_mismatch_witness :
  save record_write (fun b : bool => if b then 1%Z else 0%Z)
    [[1; 2]; [3; 4]]%Z [[1; 2]; [3; 4]]%Z [[0; 0]; [0; 0]]%Z [[0; 0]; [0; 0]]%Z
    [[false; false]] "field_001.txt" fmt_d tab []
  = (Raise (ValueError msg_vstack), []).
Proof.
  apply (X5_save_size_mismatch record_write (fun b : bool => if b then 1%Z else 0%Z)
           [[1; 2]; [3; 4]]%Z [[1; 2]; [3; 4]]%Z [[0; 0]; [0; 0]]%Z [[0; 0]; [0; 0]]%Z
           [[false; false]] "field_001.txt" fmt_d tab []).
  right. right. right. simpl. lia.
Defined.

(** ** [display] *)

Lemma str_app_assoc (s1 s2 s3 : string) :
  ((s1 ++ s2) ++ s3 = s1 ++ s2 ++ s3)%string.
Proof. induction s1 as [|ch s1 IH]; simpl; [reflexivity|]. now rewrite IH. Qed.

Lemma str_app_nil_r (s : string) : (s ++ "")%string = s.
Proof. induction s as [|ch s IH]; simpl; [reflexivity|]. now rewrite IH. Qed.

Lemma display_flushed messages : forall f,
  fold_left (fun out message => display message out) messages (Stdout f "")
  = Stdout (f ++ fold_right (fun message s => message ++ newline ++ s) "" messages)%string
           "".
Proof.
  induction messages as [|m messages IH]; intros f; simpl.
  - now rewrite str_app_nil_r.
  - unfold display at 2, sys_stdout_write, sys_stdout_flush. simpl.
    rewrite IH. now rewrite !str_app_assoc.
Qed.

(** X6: messages displayed one after the other reach the terminal in the
    order of the calls, after what was written before, each ended by a
    newline; after a call of [display] nothing is left in the buffer. *)
Theorem X6_display_lines (message : string) (messages : list string) (out : stdout) :
  fold_left (fun out message => display message out) (message :: messages) out
  = Stdout (flushed out ++ buffered out
            ++ fold_right (fun message s => message ++ newline ++ s) ""
                 (message :: messages))%string
           "".
Proof.
  simpl. unfold display at 2, sys_stdout_write, sys_stdout_flush. simpl.
  rewrite display_flushed. now rewrite !str_app_assoc.
Qed.

(** ** [display_windows_sampling] *)

Section WindowsSamplingProofs.
Context {A R : Type} (sub : A -> Z -> A) (randint : nat -> R -> nat * R).

Lemma add_window_ok (x y : list (list A)) window_size i j x0 xi yj yj0 :
  x !! 0 = Some x0 -> x0 !! i = Some xi -> y !! j = Some yj -> yj !! 0 = Some yj0 ->
  add_window sub x y window_size i j
  = ([add_patch_Rectangle (sub xi (window_size / 2)%Z) (sub yj0 (window_size / 2)%Z)
        window_size window_size], Return).
Proof.
  intros Hx Hi Hj H0. unfold add_window, getitem. now rewrite Hx, Hi, Hj, H0.
Qed.

(** The two tests of the loop body are the test [drawn]. *)
Lemma standard_body_drawn (x y : list (list A)) window_size skip i j :
  (0 <= skip)%Z ->
  standard_body sub x y window_size skip i j
  = if drawn skip (i, j) then add_window sub x y window_size i j else ([], Return).
Proof.
  intros Hs. unfold standard_body, drawn. simpl.
  assert (Hj : (Z.of_nat j mod 2 = 0 \/ Z.of_nat j mod 2 = 1)%Z)
    by (pose proof (Z.mod_pos_bound (Z.of_nat j) 2); lia).
  destruct Hj as [-> | ->]; simpl.
  - destruct (Z.eqb_spec skip 0) as [->|Hne]; simpl; [|reflexivity].
    now rewrite Z.mod_1_r.
  - now rewrite orb_comm.
Qed.

Lemma standard_row (x y : list (list A)) window_size skip x0 i xi :
  (0 <= skip)%Z -> x !! 0 = Some x0 -> x0 !! i = Some xi ->
  forall js,
    Forall (fun j => exists yj yj0, y !! j = Some yj /\ yj !! 0 = Some yj0) js ->
    exists patches,
      for_in (standard_body sub x y window_size skip i) js = (patches, Return)
      /\ Forall2 (is_window sub x0 y window_size)
           (List.filter (drawn skip) (List.map (pair i) js)) patches.
Proof.
  intros Hs Hx Hi. induction 1 as [|j js (yj & yj0 & Hj & H0) _ (patches & E & HF)];
    simpl.
  - exists []. split; [reflexivity|constructor].
  - rewrite standard_body_drawn by exact Hs.
    destruct (drawn skip (i, j)).
    + rewrite (add_window_ok _ _ _ _ _ _ _ _ _ Hx Hi Hj H0), E.
      eexists. split; [reflexivity|]. simpl. constructor; [|exact HF].
      exists xi, yj, yj0. auto.
    + rewrite E. exists patches. auto.
Qed.

Lemma standard_grid (x y : list (list A)) window_size skip x0 js :
  (0 <= skip)%Z -> x !! 0 = Some x0 ->
  Forall (fun j => exists yj yj0, y !! j = Some yj /\ yj !! 0 = Some yj0) js ->
  forall cols,
    Forall (fun i => is_Some (x0 !! i)) cols ->
    exists patches,
      for_in (fun i => for_in (standard_body sub x y window_size skip i) js) cols
      = (patches, Return)
      /\ Forall2 (is_window sub x0 y window_size)
           (List.filter (drawn skip) (list_prod cols js)) patches.
Proof.
  intros Hs Hx Hjs. induction 1 as [|i cols [xi Hi] _ (patches & E & HF)]; simpl.
  - exists []. split; [reflexivity|constructor].
  - destruct (standard_row x y window_size skip x0 i xi Hs Hx Hi js Hjs)
      as (row & Er & Hr).
    rewrite Er, E. eexists. split; [reflexivity|].
    rewrite List.filter_app. now apply Forall2_app.
Qed.

Lemma rows_ok (y : list (list A)) :
  Forall (fun row => row <> []) y ->
  Forall (fun j => exists yj yj0, y !! j = Some yj /\ yj !! 0 = Some yj0)
         (seq 0 (length y)).
Proof.
  intros Hy. apply Forall_forall. intros j Hj. apply list_elem_of_In in Hj.
  apply in_seq in Hj.
  destruct (lookup_lt_is_Some_2 y j ltac:(lia)) as [yj Ej].
  rewrite Forall_forall in Hy.
  pose proof (Hy yj (list_elem_of_lookup_2 _ _ _ Ej)) as Hne.
  destruct yj as [|yj0 yj]; [contradiction|]. exists (yj0 :: yj), yj0. auto.
Qed.

(** X7: the standard method, with [0 <= skip] and at most as many
    skipped windows as there are windows, on arrays whose rows are not
    empty: after the scatter plot and the title, one rectangle of the
    window size is added for each window that [drawn] selects, column by
    column; no other rectangle is added, and the figure is drawn and
    shown. So along a row, [skip] windows are left out between two
    rectangles, the odd rows being shifted by one column. *)
Theorem X7_standard_windows (x y : list (list A)) (window_size skip : Z) (rng : R)
    (x0 : list A) :
  (0 <= skip)%Z ->
  x !! 0 = Some x0 ->
  (skip + 1 <= Z.of_nat (length x0) * Z.of_nat (length y))%Z ->
  Forall (fun row => row <> []) y ->
  exists patches,
    display_windows_sampling sub randint x y window_size skip "standard" rng
    = ([pl_figure; pl_hold true; pl_scatter x y "g";
        set_window_title "interrogation window map"]
       ++ patches ++ [pl_draw; pl_show], Return)
    /\ Forall2 (is_window sub x0 y window_size)
         (List.filter (drawn skip)
            (list_prod (seq 0 (length x0)) (seq 0 (length y))))
         patches.
Proof.
  intros Hs Hx Hn Hy. unfold display_windows_sampling, getitem.
  destruct (Z.ltb_spec skip 0) as [|_]; [lia|]. rewrite Hx.
  destruct (Z.gtb_spec (skip + 1) (Z.of_nat (length x0) * Z.of_nat (length y)))
    as [|_]; [lia|].
  simpl String.eqb.
  destruct (standard_grid x y window_size skip x0 (seq 0 (length y)) Hs Hx
              (rows_ok y Hy) (seq 0 (length x0))) as (patches & E & HF).
  { apply Forall_forall. intros i Hi. apply list_elem_of_In in Hi.
    apply in_seq in Hi. apply lookup_lt_is_Some_2. lia. }
  rewrite E. exists patches. split; [|exact HF].
  now rewrite <- app_assoc.
Qed.

Lemma random_loop_windows (x y : list (list A)) window_size x0 :
  x !! 0 = Some x0 ->
  Forall (fun row => row <> []) y ->
  (forall n r, 0 < n -> fst (randint n r) < n) ->
  0 < length x0 -> 0 < length y ->
  forall n rng,
    exists patches,
      random_loop sub randint x y window_size (length x0) (length y) n rng
      = (patches, Return)
      /\ length patches = n
      /\ Forall (fun call => exists k l, is_window sub x0 y window_size (k, l) call)
                patches.
Proof.
  intros Hx Hy Hrand Hx0 Hy0. induction n as [|n IH]; intros rng; simpl.
  - exists []. repeat split. constructor.
  - pose proof (Hrand (length x0) rng Hx0) as Hk.
    destruct (randint (length x0) rng) as [k rng1]. simpl in Hk.
    pose proof (Hrand (length y) rng1 Hy0) as Hl.
    destruct (randint (length y) rng1) as [l rng2]. simpl in Hl.
    destruct (lookup_lt_is_Some_2 x0 k Hk) as [xk Ek].
    pose proof (rows_ok y Hy) as Hrows. rewrite Forall_forall in Hrows.
    destruct (Hrows l) as (yl & yl0 & El & E0).
    { apply list_elem_of_In, in_seq. lia. }
    rewrite (add_window_ok _ _ _ _ _ _ _ _ _ Hx Ek El E0).
    destruct (IH rng2) as (patches & E & Hlen & HF). rewrite E.
    eexists. split; [reflexivity|]. split; [simpl; now rewrite Hlen|].
    constructor; [|exact HF]. exists k, l, xk, yl, yl0. auto.
Qed.

(** X8: the random method, under the same conditions and with a
    generator that keeps to its bound: after the scatter plot and a
    title that tells their number, [len(x[0]) * len(y) / (skip + 1)]
    rectangles (floor division) are added, each one the rectangle of a
    window of the grid; the same window may be drawn more than once. The
    figure is then drawn and shown. *)
Theorem X8_random_windows (x y : list (list A)) (window_size skip : Z) (rng : R)
    (x0 : list A) :
  (0 <= skip)%Z ->
  x !! 0 = Some x0 ->
  (skip + 1 <= Z.of_nat (length x0) * Z.of_nat (length y))%Z ->
  Forall (fun row => row <> []) y ->
  (forall n r, 0 < n -> fst (randint n r) < n) ->
  exists patches,
    display_windows_sampling sub randint x y window_size skip "random" rng
    = ([pl_figure; pl_hold true; pl_scatter x y "g";
        set_window_title
          ("interrogation window map, showing randomly "
           ++ str (Z.of_nat (length x0) * Z.of_nat (length y) / (skip + 1))
           ++ " windows")%string]
       ++ patches ++ [pl_draw; pl_show], Return)
    /\ Z.of_nat (length patches)
       = (Z.of_nat (length x0) * Z.of_nat (length y) / (skip + 1))%Z
    /\ Forall (fun call => exists k l, is_window sub x0 y window_size (k, l) call)
              patches.
Proof.
  intros Hs Hx Hn Hy Hrand. unfold display_windows_sampling, getitem.
  destruct (Z.ltb_spec skip 0) as [|_]; [lia|]. rewrite Hx.
  destruct (Z.gtb_spec (skip + 1) (Z.of_nat (length x0) * Z.of_nat (length y)))
    as [|_]; [lia|].
  simpl String.eqb.
  destruct (random_loop_windows x y window_size x0 Hx Hy Hrand
              ltac:(nia) ltac:(nia)
              (Z.to_nat (Z.of_nat (length x0) * Z.of_nat (length y) / (skip + 1)))
              rng) as (patches & E & Hlen & HF).
  rewrite E. exists patches. split; [now rewrite <- app_assoc|]. split; [|exact HF].
  rewrite Hlen. apply Z2Nat.id. apply Z.div_pos; lia.
Qed.

(** X9: the method is examined only when windows are to be drawn. With
    [skip < 0], or with more skipped windows than there are windows,
    every method, valid or not, gives the map of the points alone: title,
    scatter plot, draw and show, and no rectangle. Otherwise a method
    other than standard and random raises the ValueError, when the figure
    has been created and before anything is plotted. With [0 <= skip] and
    an array [x] without rows, [x[0]] raises an IndexError. *)
Theorem X9_method_checked_late (x y : list (list A)) (window_size skip : Z)
    (method : string) (rng : R) :
  ((skip < 0)%Z ->
   display_windows_sampling sub randint x y window_size skip method rng
   = ([pl_figure; pl_hold true; set_window_title "interrogation points map";
       pl_scatter x y "g"; pl_draw; pl_show], Return))
  /\ (forall x0, (0 <= skip)%Z -> x !! 0 = Some x0 ->
        (skip + 1 > Z.of_nat (length x0) * Z.of_nat (length y))%Z ->
        display_windows_sampling sub randint x y window_size skip method rng
        = ([pl_figure; pl_hold true; set_window_title "interrogation points map";
            pl_scatter x y "g"; pl_draw; pl_show], Return))
  /\ (forall x0, (0 <= skip)%Z -> x !! 0 = Some x0 ->
        (skip + 1 <= Z.of_nat (length x0) * Z.of_nat (length y))%Z ->
        method <> "standard" -> method <> "random" ->
        display_windows_sampling sub randint x y window_size skip method rng
        = ([pl_figure; pl_hold true], Raise (ValueError msg_method)))
  /\ ((0 <= skip)%Z -> x = [] ->
      display_windows_sampling sub randint x y window_size skip method rng
      = ([pl_figure; pl_hold true], Raise IndexError)).
Proof.
  unfold display_windows_sampling, getitem. split; [|split; [|split]].
  - intros Hs. destruct (Z.ltb_spec skip 0); [reflexivity|lia].
  - intros x0 Hs Hx Hn. destruct (Z.ltb_spec skip 0); [lia|]. rewrite Hx.
    destruct (Z.gtb_spec (skip + 1) (Z.of_nat (length x0) * Z.of_nat (length y)));
      [reflexivity|lia].
  - intros x0 Hs Hx Hn H1 H2. destruct (Z.ltb_spec skip 0); [lia|]. rewrite Hx.
    destruct (Z.gtb_spec (skip + 1) (Z.of_nat (length x0) * Z.of_nat (length y)));
      [lia|].
    apply String.eqb_neq in H1, H2. now rewrite H1, H2.
  - intros Hs ->. destruct (Z.ltb_spec skip 0); [lia|]. reflexivity.
Qed.

End WindowsSamplingProofs.

(** Three columns and two rows, one window skipped: columns 0 and 2 in
    row 0, column 1 in row 1. *)
Lemma X7_standard_windows_witness :
  exists patches,
    display_windows_sampling Z.sub counter_randint
      [[10; 20; 30]; [10; 20; 30]]%Z [[5; 5; 5]; [15; 15; 15]]%Z 8 1 "standard" 0
    = ([pl_figure; pl_hold true;
        pl_scatter [[10; 20; 30]; [10; 20; 30]]%Z [[5; 5; 5]; [15; 15; 15]]%Z "g";
        set_window_title "interrogation window map"]
       ++ patches ++ [pl_draw; pl_show], Return)
    /\ Forall2 (is_window Z.sub [10; 20; 30]%Z [[5; 5; 5]; [15; 15; 15]]%Z 8)
         [(0, 0); (1, 1); (2, 0)] patches.
Proof.
  apply (X7_standard_windows Z.sub counter_randint
           [[10; 20; 30]; [10; 20; 30]]%Z [[5; 5; 5]; [15; 15; 15]]%Z 8 1 0
           [10; 20; 30]%Z).
  - lia.
  - reflexivity.
  - simpl. lia.
  - repeat constructor; discriminate.
Defined.

Lemma X8_random_windows_witness :
  exists patches,
    display_windows_sampling Z.sub counter_randint
      [[10; 20; 30]; [10; 20; 30]]%Z [[5; 5; 5]; [15; 15; 15]]%Z 8 1 "random" 0
    = ([pl_figure; pl_hold true;
        pl_scatter [[10; 20; 30]; [10; 20; 30]]%Z [[5; 5; 5]; [15; 15; 15]]%Z "g";
        set_window_title "interrogation window map, showing randomly 3 windows"]
       ++ patches ++ [pl_draw; pl_show], Return)
    /\ Z.of_nat (length patches) = 3%Z.
Proof.
  destruct (X8_random_windows Z.sub counter_randint
              [[10; 20; 30]; [10; 20; 30]]%Z [[5; 5; 5]; [15; 15; 15]]%Z 8 1 0
              [10; 20; 30]%Z) as (patches & E & Hlen & _).
  - lia.
  - reflexivity.
  - simpl. lia.
  - repeat constructor; discriminate.
  - intros n r Hn. simpl. apply Nat.mod_upper_bound. lia.
  - exists patches. split; [exact E|exact Hlen].
Defined.

(** A method that does not exist: unnoticed with [skip = -1], refused
    with [skip = 2]. *)
Lemma X9_method_checked_late_witness :
  display_windows_sampling Z.sub counter_randint
    [[10; 20; 30]; [10; 20; 30]]%Z [[5; 5; 5]; [15; 15; 15]]%Z 8 (-1) "bogus" 0
  = ([pl_figure; pl_hold true; set_window_title "interrogation points map";
      pl_scatter [[10; 20; 30]; [10; 20; 30]]%Z [[5; 5; 5]; [15; 15; 15]]%Z "g";
      pl_draw; pl_show], Return)
  /\ display_windows_sampling Z.sub counter_randint
       [[10; 20; 30]; [10; 20; 30]]%Z [[5; 5; 5]; [15; 15; 15]]%Z 8 2 "bogus" 0
     = ([pl_figure; pl_hold true], Raise (ValueError msg_method)).
Proof.
  split.
  - apply (X9_method_checked_late Z.sub counter_randint
             [[10; 20; 30]; [10; 20; 30]]%Z [[5; 5; 5]; [15; 15; 15]]%Z 8 (-1)
             "bogus" 0). lia.
  - destruct (X9_method_checked_late Z.sub counter_randint
                [[10; 20; 30]; [10; 20; 30]]%Z [[5; 5; 5]; [15; 15; 15]]%Z 8 2
                "bogus" 0) as (_ & _ & H & _).
    apply (H [10; 20; 30]%Z); [lia|reflexivity|simpl; lia|discriminate|discriminate].
Defined.

(** ** More on [Multiprocesser] *)

(** X10: an object that [__init__] builds holds exactly the files the two
    globs found, none lost and none twice, each list in ascending order
    of the path strings, and [n_files] is the number of files that
    matched the first pattern. *)
Theorem X10_init_files h data_dir pattern_a pattern_b self :
  Multiprocesser.__init__ h data_dir pattern_a pattern_b = inr self ->
  Permutation (Multiprocesser.files_a self)
    (glob_glob h (os_path_join h (os_path_abspath h data_dir) pattern_a))
  /\ Permutation (Multiprocesser.files_b self)
    (glob_glob h (os_path_join h (os_path_abspath h data_dir) pattern_b))
  /\ Sorted str_le (Multiprocesser.files_a self)
  /\ Sorted str_le (Multiprocesser.files_b self)
  /\ Multiprocesser.n_files self
     = length (glob_glob h (os_path_join h (os_path_abspath h data_dir) pattern_a)).
Proof.
  intros H. destruct (init_inr _ _ _ _ _ H) as (Ha & Hb & Hn & _).
  rewrite Hn, Ha, Hb.
  repeat split; auto using sorted_Permutation, sorted_Sorted, sorted_length.
Qed.

Lemma X10_init_files_witness :
  exists self,
    Multiprocesser.__init__ scenario_host "/data" "img_*_a.png" "img_*_b.png"
      = inr self
    /\ Permutation (Multiprocesser.files_b self)
         ["/data/img_001_b.png"; "/data/img_000_b.png"]
    /\ Sorted str_le (Multiprocesser.files_b self).
Proof.
  eexists. split; [vm_compute; reflexivity|].
  destruct (X10_init_files scenario_host "/data" "img_*_a.png" "img_*_b.png" _
              eq_refl) as (_ & Hb & _ & Hs & _).
  split; [exact Hb|exact Hs].
Defined.

(** X11: [run] keeps no record of what it did: with [n_cpus <= 1] and a
    function that raises on no task, a second call of [run] calls the
    function on every task again, in the same order, in the world the
    first call left. *)
Theorem X11_run_twice {W} (self : Multiprocesser.t) (func : callable W)
    (n1 n2 : Z) (w : W) :
  (n1 <= 1)%Z -> (n2 <= 1)%Z ->
  (forall x w0, In x (Multiprocesser.image_pairs self) -> fst (func x w0) = Return) ->
  exists w1 w2,
    (forall out, Multiprocesser.run self (traced func) n1 (w, []) out
                 <-> out = (Return, (w1, Multiprocesser.image_pairs self)))
    /\ (forall out,
          Multiprocesser.run self (traced func) n2
            (w1, Multiprocesser.image_pairs self) out
          <-> out = (Return, (w2, Multiprocesser.image_pairs self
                                  ++ Multiprocesser.image_pairs self)))
    /\ for_each func (Multiprocesser.image_pairs self) w = (Return, w1)
    /\ for_each func (Multiprocesser.image_pairs self) w1 = (Return, w2).
Proof.
  intros Hn1 Hn2 Hok.
  assert (G : forall w0 calls, exists w',
             for_each (traced func) (Multiprocesser.image_pairs self) (w0, calls)
             = (Return, (w', calls ++ Multiprocesser.image_pairs self))
             /\ for_each func (Multiprocesser.image_pairs self) w0 = (Return, w')).
  { intros w0 calls.
    destruct (for_each (traced func) (Multiprocesser.image_pairs self) (w0, calls))
      as [r [w' calls']] eqn:E.
    destruct (for_each_traced _ _ _ _ _ _ _ E) as (E' & k & Hc & Hk).
    pose proof (for_each_return func _ Hok w0) as Hr. rewrite E' in Hr.
    simpl in Hr. subst r. rewrite Hk, firstn_all in Hc. subst calls'.
    exists w'. auto. }
  destruct (G w []) as (w1 & E1 & F1). destruct (G w1 (Multiprocesser.image_pairs self))
    as (w2 & E2 & F2).
  exists w1, w2. repeat split; auto.
  - rewrite run_sequential by exact Hn1. now rewrite E1.
  - rewrite run_sequential by exact Hn1. now rewrite E1.
  - rewrite run_sequential by exact Hn2. now rewrite E2.
  - rewrite run_sequential by exact Hn2. now rewrite E2.
Qed.

Lemma X11_run_twice_witness :
  exists w1 w2,
    for_each write_index (Multiprocesser.image_pairs five_pairs) [] = (Return, w1)
    /\ for_each write_index (Multiprocesser.image_pairs five_pairs) w1 = (Return, w2)
    /\ w2 = [0; 1; 2; 3; 4; 0; 1; 2; 3; 4].
Proof.
  destruct (X11_run_twice five_pairs write_index 1 0 []) as (w1 & w2 & _ & _ & F1 & F2).
  - lia.
  - lia.
  - intros [[a b] i] w0 _. reflexivity.
  - exists w1, w2. split; [exact F1|]. split; [exact F2|].
    vm_compute in F1. injection F1 as <-. vm_compute in F2. now injection F2 as <-.
Defined.



(** ** [display_vector_field] *)

Lemma col_cons {F} c (row : list F) rows :
  col c (row :: rows) = option_list (row !! c) ++ col c rows.
Proof. reflexivity. Qed.

(** A column of a well-formed array. *)
Lemma column_rows {F} ncols (rows : list (list F)) c :
  Forall (fun row => length row = ncols) rows -> c < ncols ->
  column (Array2 ncols rows) c = inr (col c rows)
  /\ length (col c rows) = length rows.
Proof.
  intros Hwf Hc. unfold column.
  destruct (Nat.ltb_spec c ncols) as [_|]; [|lia].
  assert (G : mapM (fun row : list F => row !! c) rows = Some (col c rows)
              /\ length (col c rows) = length rows).
  { induction Hwf as [|row rows Hrow _ [IH1 IH2]]; [split; reflexivity|].
    destruct (lookup_lt_is_Some_2 row c ltac:(lia)) as [v Ev].
    rewrite col_cons, Ev. simpl. rewrite Ev, IH1. simpl. now rewrite IH2. }
  destruct G as [-> G]. auto.
Qed.

(** The mask of the wrong vectors selects, in every column, the rows
    whose fifth number is not zero; its complement selects the others;
    and it counts the wrong vectors. *)
Lemma select_wrong {F} (nonzero : F -> bool) ncols (rows : list (list F)) c :
  Forall (fun row => length row = ncols) rows -> 4 < ncols -> c < ncols ->
  select (List.map nonzero (col 4 rows)) (col c rows)
  = col c (List.filter (wrong nonzero) rows)
  /\ select (List.map negb (List.map nonzero (col 4 rows))) (col c rows)
     = col c (List.filter (fun row => negb (wrong nonzero row)) rows)
  /\ count_nonzero (List.map nonzero (col 4 rows))
     = length (List.filter (wrong nonzero) rows).
Proof.
  intros Hwf H4 Hc. unfold count_nonzero.
  induction Hwf as [|row rows Hrow _ (IH1 & IH2 & IH3)]; [repeat split|].
  destruct (lookup_lt_is_Some_2 row 4 ltac:(lia)) as [v4 E4].
  destruct (lookup_lt_is_Some_2 row c ltac:(lia)) as [vc Ec].
  assert (Hw : wrong nonzero row = nonzero v4) by (unfold wrong; now rewrite E4).
  rewrite !col_cons, E4, Ec. simpl. rewrite Hw.
  destruct (nonzero v4); simpl; rewrite ?col_cons, ?Ec, IH1, IH2, IH3; auto.
Qed.

Section VectorFieldProofs.
Context {F IMG K W : Type}.
Context (nonzero : F -> bool) (fmax : F -> F -> F) (add_int : F -> Z -> F).
Context (np_loadtxt : string -> W -> exception + array F).
Context (scipy_misc_imread : string -> Z -> W -> exception + ndarray).
Context (scipy_misc_imsave : string -> ndarray -> W -> result * W).
Context (mpltimg_imread : string -> W -> exception + IMG).

Lemma show_vectors_rows ncols rows (kw : K)
    (calls : list (field_call F IMG K)) (w : W) :
  Forall (fun row => length row = ncols) rows -> 5 <= ncols ->
  show_vectors (IMG := IMG) (W := W) nonzero (Array2 ncols rows) kw (calls, w)
  = (inr tt, (calls ++ vector_calls nonzero rows kw, w)).
Proof.
  intros Hwf Hn. unfold show_vectors, masked_column, bind, lift, emit.
  destruct (column_rows ncols rows 4 Hwf ltac:(lia)) as [-> _].
  destruct (column_rows ncols rows 0 Hwf ltac:(lia)) as [-> _].
  destruct (column_rows ncols rows 1 Hwf ltac:(lia)) as [-> _].
  destruct (column_rows ncols rows 2 Hwf ltac:(lia)) as [-> _].
  destruct (column_rows ncols rows 3 Hwf ltac:(lia)) as [-> _].
  destruct (select_wrong nonzero ncols rows 0 Hwf ltac:(lia) ltac:(lia))
    as (-> & -> & ->).
  destruct (select_wrong nonzero ncols rows 1 Hwf ltac:(lia) ltac:(lia))
    as (-> & -> & _).
  destruct (select_wrong nonzero ncols rows 2 Hwf ltac:(lia) ltac:(lia))
    as (-> & -> & _).
  destruct (select_wrong nonzero ncols rows 3 Hwf ltac:(lia) ltac:(lia))
    as (-> & -> & _).
  unfold vector_calls. rewrite <- !app_assoc. reflexivity.
Qed.

Lemma filter_partition {B} (f : B -> bool) (l : list B) :
  Permutation (List.filter f l ++ List.filter (fun b => negb (f b)) l) l.
Proof.
  induction l as [|b l IH]; simpl; [constructor|].
  destruct (f b); simpl.
  - now constructor.
  - rewrite <- Permutation_middle. now constructor.
Qed.

Lemma filter_wf {B} (P : B -> Prop) (f : B -> bool) (l : list B) :
  Forall P l -> Forall P (List.filter f l).
Proof.
  induction 1 as [|b l Hb _ IH]; simpl; [constructor|].
  destruct (f b); [constructor|]; auto.
Qed.

Lemma astype_int32 (image : ndarray) :
  Forall (Forall in_int32) image -> List.map (List.map int32) image = image.
Proof.
  induction 1 as [|row image Hrow _ IH]; simpl; [reflexivity|].
  rewrite IH. f_equal.
  induction Hrow as [|p row Hp _ IHrow]; simpl; [reflexivity|].
  now rewrite IHrow, int32_small.
Qed.

(** X13: without a background image, a field read as a table of at least
    five columns is shown in two [quiver] calls: in red the rows whose
    fifth number is not zero, in blue the other rows, each with its
    first four numbers; every row is in exactly one of the two, and the
    title tells the number of red ones. Nothing is written. *)
Theorem X13_vector_field_colours (filename image_name : string)
    (window_size scaling_factor : Z) (kw : K) (w : W)
    (ncols : nat) (rows : list (list F)) :
  np_loadtxt filename w = inr (Array2 ncols rows) ->
  Forall (fun row => length row = ncols) rows ->
  5 <= ncols ->
  display_vector_field nonzero fmax add_int np_loadtxt scipy_misc_imread
    scipy_misc_imsave mpltimg_imread filename false image_name
    window_size scaling_factor kw ([], w)
  = (inr tt, ([vf_figure; vf_hold true] ++ vector_calls nonzero rows kw, w))
  /\ Permutation
       (List.filter (wrong nonzero) rows
        ++ List.filter (fun row => negb (wrong nonzero row)) rows) rows
  /\ (forall c, c < 4 ->
        length (col c (List.filter (wrong nonzero) rows))
        = length (List.filter (wrong nonzero) rows)
        /\ length (col c (List.filter (fun row => negb (wrong nonzero row)) rows))
           = length (List.filter (fun row => negb (wrong nonzero row)) rows)).
Proof.
  intros Hload Hwf Hn. split; [|split].
  - unfold display_vector_field, bind, reading, emit, ret. rewrite Hload. simpl.
    now rewrite (show_vectors_rows ncols rows kw _ w Hwf Hn).
  - apply filter_partition.
  - intros c Hc. split.
    + apply (column_rows ncols _ c (filter_wf _ _ _ Hwf)). lia.
    + apply (column_rows ncols _ c (filter_wf _ _ _ Hwf)). lia.
Qed.

(** X14: a field that [np.loadtxt] returns as a one-dimensional array (a
    file of one line), or as a table of less than five columns, cannot
    be shown: [a[:,4]] raises an IndexError when the figure has been
    created, and nothing is plotted. *)
Theorem X14_vector_field_needs_table (filename image_name : string)
    (window_size scaling_factor : Z) (kw : K) (w : W) :
  (forall values,
      np_loadtxt filename w = inr (Array1 values) ->
      display_vector_field nonzero fmax add_int np_loadtxt scipy_misc_imread
        scipy_misc_imsave mpltimg_imread filename false image_name
        window_size scaling_factor kw ([], w)
      = (inl too_many_indices, ([vf_figure; vf_hold true], w)))
  /\ (forall ncols rows,
        np_loadtxt filename w = inr (Array2 ncols rows) -> ncols < 5 ->
        display_vector_field nonzero fmax add_int np_loadtxt scipy_misc_imread
          scipy_misc_imsave mpltimg_imread filename false image_name
          window_size scaling_factor kw ([], w)
        = (inl IndexError, ([vf_figure; vf_hold true], w))).
Proof.
  split.
  - intros values Hload.
    unfold display_vector_field, show_vectors, bind, reading, emit, ret, lift.
    rewrite Hload. reflexivity.
  - intros ncols rows Hload Hn.
    unfold display_vector_field, show_vectors, bind, reading, emit, ret, lift, column.
    rewrite Hload. simpl.
    destruct (Nat.ltb_spec 4 ncols); [lia|reflexivity].
Qed.

(** X15: with a background image, the image must be one of grey levels
    0..255: when the image read has a pixel outside, [imsave] refuses its
    negative, and the function raises that ValueError when the figure
    has been created; the file neg.jpg is not written and nothing is
    plotted. *)
Theorem X15_vector_field_image_range (filename image_name : string)
    (window_size scaling_factor : Z) (kw : K) (w : W)
    (a : array F) (image : ndarray) :
  np_loadtxt filename w = inr a ->
  scipy_misc_imread image_name 0%Z w = inr image ->
  Forall (Forall in_int32) image ->
  concat image <> [] ->
  ~ Forall (fun p => (0 <= p <= 255)%Z) (concat image) ->
  display_vector_field nonzero fmax add_int np_loadtxt scipy_misc_imread
    scipy_misc_imsave mpltimg_imread filename true image_name
    window_size scaling_factor kw ([], w)
  = (inl (ValueError msg_grey_levels), ([vf_figure; vf_hold true], w)).
Proof.
  intros Hload Hread H32 Hne Hgrey.
  unfold display_vector_field, show_background, bind, reading, emit, ret, acting,
    imread.
  rewrite Hload. simpl. rewrite Hread, (astype_int32 image H32).
  destruct (imsave_cases scipy_misc_imsave "neg.jpg" (negative image) w)
    as [[H0 E]|[(H0 & HF & E)|(H0 & HF & E)]]; rewrite E.
  - now apply negative_not_empty in Hne.
  - apply (negative_grey_iff image H32) in HF. contradiction.
  - reflexivity.
Qed.

(** X16: with a background image of grey levels, the negative of the
    image is written to the file neg.jpg and read back, and shown up to
    the largest x and the largest y of the field, each increased by
    [window_size / (2 * scaling_factor)]; for integer arguments this is
    the floor division, so nothing is added when
    [0 <= window_size < 2 * scaling_factor]. The vectors follow as
    without an image. *)
Theorem X16_vector_field_on_image (filename image_name : string)
    (window_size scaling_factor : Z) (kw : K) (w w' : W)
    (ncols : nat) (rows : list (list F)) (image : ndarray) (im : IMG) :
  np_loadtxt filename w = inr (Array2 ncols rows) ->
  Forall (fun row => length row = ncols) rows ->
  5 <= ncols ->
  rows <> [] ->
  scipy_misc_imread image_name 0%Z w = inr image ->
  Forall (Forall in_int32) image ->
  concat image <> [] ->
  Forall (fun p => (0 <= p <= 255)%Z) (concat image) ->
  scipy_misc_imsave "neg.jpg" (negative image) w = (Return, w') ->
  mpltimg_imread "neg.jpg" w' = inr im ->
  scaling_factor <> 0%Z ->
  exists xm ym,
    amax_with fmax (col 0 rows) = inr xm
    /\ amax_with fmax (col 1 rows) = inr ym
    /\ display_vector_field nonzero fmax add_int np_loadtxt scipy_misc_imread
         scipy_misc_imsave mpltimg_imread filename true image_name
         window_size scaling_factor kw ([], w)
       = (inr tt,
          ([vf_figure; vf_hold true;
            vf_imshow im (add_int xm (window_size / (2 * scaling_factor))%Z)
                         (add_int ym (window_size / (2 * scaling_factor))%Z)]
           ++ vector_calls nonzero rows kw, w'))
    /\ ((0 <= window_size < 2 * scaling_factor)%Z ->
        (window_size / (2 * scaling_factor) = 0)%Z).
Proof.
  intros Hload Hwf Hn Hrows Hread H32 Hne Hgrey Hsave Hback Hsf.
  destruct (column_rows ncols rows 0 Hwf ltac:(lia)) as [Hc0 Hl0].
  destruct (column_rows ncols rows 1 Hwf ltac:(lia)) as [Hc1 Hl1].
  assert (Hx : exists xm, amax_with fmax (col 0 rows) = inr xm).
  { destruct (col 0 rows); [destruct rows; [contradiction|discriminate]|].
    simpl. eauto. }
  assert (Hy : exists ym, amax_with fmax (col 1 rows) = inr ym).
  { destruct (col 1 rows); [destruct rows; [contradiction|discriminate]|].
    simpl. eauto. }
  destruct Hx as [xm Hx]. destruct Hy as [ym Hy]. exists xm, ym.
  split; [exact Hx|]. split; [exact Hy|]. split.
  - unfold display_vector_field, show_background, extent_max, bind, reading, emit,
      ret, acting, lift, imread, floordiv.
    rewrite Hload. simpl. rewrite Hread, (astype_int32 image H32).
    destruct (imsave_cases scipy_misc_imsave "neg.jpg" (negative image) w)
      as [[H0 E]|[(H0 & HF & E)|(H0 & HF & E)]]; rewrite E.
    + now apply negative_not_empty in Hne.
    + rewrite Hsave, Hback, Hc0, Hx, Hc1, Hy.
      destruct (Z.eqb_spec (2 * scaling_factor) 0) as [|_]; [lia|].
      now rewrite (show_vectors_rows ncols rows kw _ w' Hwf Hn).
    + apply (negative_grey_iff image H32) in Hgrey. contradiction.
  - intros Hws. apply Z.div_small. lia.
Qed.

(** X17: with a background image and [scaling_factor = 0], the division
    raises a ZeroDivisionError, after the file neg.jpg has been written:
    the file stays, and nothing is plotted. *)
Theorem X17_vector_field_zero_scaling (filename image_name : string)
    (window_size : Z) (kw : K) (w w' : W)
    (ncols : nat) (rows : list (list F)) (image : ndarray) (im : IMG) :
  np_loadtxt filename w = inr (Array2 ncols rows) ->
  Forall (fun row => length row = ncols) rows ->
  5 <= ncols ->
  rows <> [] ->
  scipy_misc_imread image_name 0%Z w = inr image ->
  Forall (Forall in_int32) image ->
  concat image <> [] ->
  Forall (fun p => (0 <= p <= 255)%Z) (concat image) ->
  scipy_misc_imsave "neg.jpg" (negative image) w = (Return, w') ->
  mpltimg_imread "neg.jpg" w' = inr im ->
  display_vector_field nonzero fmax add_int np_loadtxt scipy_misc_imread
    scipy_misc_imsave mpltimg_imread filename true image_name
    window_size 0 kw ([], w)
  = (inl ZeroDivisionError, ([vf_figure; vf_hold true], w')).
Proof.
  intros Hload Hwf Hn Hrows Hread H32 Hne Hgrey Hsave Hback.
  destruct (column_rows ncols rows 0 Hwf ltac:(lia)) as [Hc0 Hl0].
  assert (Hx : exists xm, amax_with fmax (col 0 rows) = inr xm).
  { destruct (col 0 rows); [destruct rows; [contradiction|discriminate]|].
    simpl. eauto. }
  destruct Hx as [xm Hx].
  unfold display_vector_field, show_background, extent_max, bind, reading, emit,
    ret, acting, lift, imread, floordiv.
  rewrite Hload. simpl. rewrite Hread, (astype_int32 image H32).
  destruct (imsave_cases scipy_misc_imsave "neg.jpg" (negative image) w)
    as [[H0 E]|[(H0 & HF & E)|(H0 & HF & E)]]; rewrite E.
  - now apply negative_not_empty in Hne.
  - now rewrite Hsave, Hback, Hc0, Hx.
  - apply (negative_grey_iff image H32) in Hgrey. contradiction.
Qed.

End VectorFieldProofs.

(** A field of three vectors, the second one wrong. *)
Lemma X13_vector_field_colours_witness :
  display_vector_field nonzeroZ Z.max Z.add loadtxt_3 imread_8bit record_write
    read_back "exp1_0000.txt" false "None" 32 1 tt ([], [])
  = (inr tt,
     ([vf_figure; vf_hold true;
       vf_set_window_title "Vector field, 1 wrong vectors";
       vf_quiver [5] [6] [7] [8] "r" tt;
       vf_quiver [1; 9] [2; 10] [3; 11] [4; 12] "b" tt;
       vf_draw; vf_show]%Z, [])).
Proof.
  apply (X13_vector_field_colours nonzeroZ Z.max Z.add loadtxt_3 imread_8bit
           record_write read_back "exp1_0000.txt" "None" 32 1 tt [] 5
           [[1; 2; 3; 4; 0]; [5; 6; 7; 8; 1]; [9; 10; 11; 12; 0]]%Z).
  - reflexivity.
  - repeat constructor.
  - lia.
Defined.

(** A field file of one line. *)
Lemma X14_vector_field_needs_table_witness :
  display_vector_field nonzeroZ Z.max Z.add loadtxt_1 imread_8bit record_write
    read_back "exp1_0000.txt" false "None" 32 1 tt ([], [])
  = (inl too_many_indices, ([vf_figure; vf_hold true], [])).
Proof.
  destruct (X14_vector_field_needs_table nonzeroZ Z.max Z.add loadtxt_1
              imread_8bit record_write read_back "exp1_0000.txt" "None" 32 1 tt [])
    as [H _].
  apply (H [1; 2; 3; 4; 0]%Z). reflexivity.
Defined.

(** An image with the pixel 300. *)
Lemma X15_vector_field_image_range_witness :
  display_vector_field nonzeroZ Z.max Z.add loadtxt_3 imread_16bit record_write
    read_back "exp1_0000.txt" true "exp1_001_a.bmp" 32 1 tt ([], [])
  = (inl (ValueError msg_grey_levels), ([vf_figure; vf_hold true], [])).
Proof.
  apply (X15_vector_field_image_range nonzeroZ Z.max Z.add loadtxt_3 imread_16bit
           record_write read_back "exp1_0000.txt" "exp1_001_a.bmp" 32 1 tt []
           field_3 [[0; 255]; [7; 300]]%Z).
  - reflexivity.
  - reflexivity.
  - repeat constructor; unfold in_int32; lia.
  - discriminate.
  - intros H. apply Forall_cons in H. destruct H as [_ H].
    apply Forall_cons in H. destruct H as [_ H].
    apply Forall_cons in H. destruct H as [_ H].
    apply Forall_cons in H. destruct H as [H _]. lia.
Defined.

(** The arguments of the example of the docstring: a window size of 32
    and a scaling factor of 70 add nothing to the largest x, 9, and the
    largest y, 10. *)
Lemma X16_vector_field_on_image_witness :
  display_vector_field nonzeroZ Z.max Z.add loadtxt_3 imread_8bit record_write
    read_back "exp1_0000.txt" true "exp1_001_a.bmp" 32 70 tt ([], [])
  = (inr tt,
     ([vf_figure; vf_hold true;
       vf_imshow [[255; 0]; [248; 225]] 9 10;
       vf_set_window_title "Vector field, 1 wrong vectors";
       vf_quiver [5] [6] [7] [8] "r" tt;
       vf_quiver [1; 9] [2; 10] [3; 11] [4; 12] "b" tt;
       vf_draw; vf_show]%Z,
      [("neg.jpg", [[255; 0]; [248; 225]]%Z)])).
Proof.
  destruct (X16_vector_field_on_image nonzeroZ Z.max Z.add loadtxt_3 imread_8bit
              record_write read_back "exp1_0000.txt" "exp1_001_a.bmp" 32 70 tt
              [] [("neg.jpg", [[255; 0]; [248; 225]]%Z)] 5
              [[1; 2; 3; 4; 0]; [5; 6; 7; 8; 1]; [9; 10; 11; 12; 0]]%Z
              [[0; 255]; [7; 30]]%Z [[255; 0]; [248; 225]]%Z)
    as (xm & ym & Hx & Hy & E & _).
  - reflexivity.
  - repeat constructor.
  - lia.
  - discriminate.
  - reflexivity.
  - repeat constructor; unfold in_int32; lia.
  - discriminate.
  - repeat constructor; lia.
  - reflexivity.
  - reflexivity.
  - lia.
  - vm_compute in Hx. injection Hx as <-. vm_compute in Hy. injection Hy as <-.
    exact E.
Defined.

Lemma X17_vector_field_zero_scaling_witness :
  display_vector_field nonzeroZ Z.max Z.add loadtxt_3 imread_8bit record_write
    read_back "exp1_0000.txt" true "exp1_001_a.bmp" 32 0 tt ([], [])
  = (inl ZeroDivisionError,
     ([vf_figure; vf_hold true], [("neg.jpg", [[255; 0]; [248; 225]]%Z)])).
Proof.
  apply (X17_vector_field_zero_scaling nonzeroZ Z.max Z.add loadtxt_3 imread_8bit
           record_write read_back "exp1_0000.txt" "exp1_001_a.bmp" 32 tt
           [] [("neg.jpg", [[255; 0]; [248; 225]]%Z)] 5
           [[1; 2; 3; 4; 0]; [5; 6; 7; 8; 1]; [9; 10; 11; 12; 0]]%Z
           [[0; 255]; [7; 30]]%Z [[255; 0]; [248; 225]]%Z).
  - reflexivity.
  - repeat constructor.
  - lia.
  - discriminate.
  - reflexivity.
  - repeat constructor; unfold in_int32; lia.
  - discriminate.
  - repeat constructor; lia.
  - reflexivity.
  - reflexivity.
Defined.
